(** * Shallow embedding of [src/model/encoder.py]

    The watermark encoder is a PyTorch module.  Its observable behaviour is
    a composition of tensor plumbing (reshape, unsqueeze, expand, cat,
    slicing, interpolation), whose meaning is fixed, and of numeric layers
    (convolutions, transformers, the pretrained backbone), whose values
    depend on weights.  Tensors are modelled as a shape, a dtype, a device
    and an index function; the plumbing is defined on that representation
    and the numeric layers are left to an interface ([Numerics]) so that
    every statement holds for any choice of arithmetic. *)

From Stdlib Require Import ZArith List String Bool Lia.
Import ListNotations.
Open Scope string_scope.
Open Scope Z_scope.

Set Implicit Arguments.

(** ** Exceptions and results *)

Inductive exn : Type :=
| ValueError (msg : string)
| RuntimeError (msg : string)
| AssertionError (msg : string)
| IndexError (msg : string)
| AttributeError (msg : string)
| TypeError (msg : string)
| OSError (msg : string).

Inductive result (X : Type) : Type :=
| ok (x : X)
| raise (e : exn).
Arguments ok {X} x.
Arguments raise {X} e.

Definition is_ok {X} (r : result X) : bool :=
  match r with ok _ => true | raise _ => false end.

Definition rbind {X Y} (r : result X) (k : X -> result Y) : result Y :=
  match r with ok x => k x | raise e => raise e end.

Definition rmap {X Y} (f : X -> Y) (r : result X) : result Y :=
  match r with ok x => ok (f x) | raise e => raise e end.

(** A computation that may raise and that threads a state [S]; a raise keeps
    the state reached so far, as a Python exception leaves earlier mutations
    in place. *)
Definition M (S X : Type) : Type := S -> result X * S.

Definition ret {S X} (x : X) : M S X := fun s => (ok x, s).
Definition throw {S X} (e : exn) : M S X := fun s => (raise e, s).
Definition bind {S X Y} (m : M S X) (k : X -> M S Y) : M S Y :=
  fun s => match m s with
           | (ok x, s') => k x s'
           | (raise e, s') => (raise e, s')
           end.
Definition lift {S X} (r : result X) : M S X := fun s => (r, s).
Definition gets {S X} (f : S -> X) : M S X := fun s => (ok (f s), s).
Definition modify {S} (f : S -> S) : M S unit := fun s => (ok tt, f s).

Declare Scope monad_scope.
Delimit Scope monad_scope with monad.
Notation "x <- m ;; k" := (bind m (fun x => k))
  (at level 61, m at next level, right associativity) : monad_scope.
Notation "m ;;; k" := (bind m (fun _ => k))
  (at level 61, right associativity) : monad_scope.
Notation "x <~ r ;; k" := (rbind r (fun x => k))
  (at level 61, r at next level, right associativity) : monad_scope.
Open Scope monad_scope.

(** ** Tensors *)

Inductive dtype : Type := float16 | bfloat16 | float32 | float64.
Inductive device : Type := cpu | cuda.

Definition dtype_eqb (a b : dtype) : bool :=
  match a, b with
  | float16, float16 | bfloat16, bfloat16
  | float32, float32 | float64, float64 => true
  | _, _ => false
  end.

Definition device_eqb (a b : device) : bool :=
  match a, b with
  | cpu, cpu | cuda, cuda => true
  | _, _ => false
  end.

(** [torch.promote_types] on the floating types. *)
Definition promote_types (a b : dtype) : dtype :=
  match a, b with
  | float64, _ | _, float64 => float64
  | float32, _ | _, float32 => float32
  | float16, float16 => float16
  | bfloat16, bfloat16 => bfloat16
  | _, _ => float32
  end.

Section Tensor.
Variable A : Type.

Record tensor : Type := Tensor {
  shape : list Z;
  t_dtype : dtype;
  t_device : device;
  data : list Z -> A
}.

Definition numel (s : list Z) : Z := fold_right Z.mul 1 s.
Definition ndim (t : tensor) : Z := Z.of_nat (List.length (shape t)).

Fixpoint in_bounds (s idx : list Z) : bool :=
  match s, idx with
  | [], [] => true
  | d :: ds, i :: js => (0 <=? i) && (i <? d) && in_bounds ds js
  | _, _ => false
  end.

(** Element access, [t[i0, i1, ...]] with every index given and in range. *)
Definition get (t : tensor) (idx : list Z) : option A :=
  if in_bounds (shape t) idx then Some (data t idx) else None.

(** [t.shape[i]] *)
Definition shape_at (t : tensor) (i : nat) : result Z :=
  match nth_error (shape t) i with
  | Some d => ok d
  | None => raise (IndexError "tuple index out of range")
  end.

(** Row-major position of an index, and back. *)
Fixpoint ravel (s idx : list Z) : Z :=
  match s, idx with
  | _ :: ds, i :: js => i * numel ds + ravel ds js
  | _, _ => 0
  end.

Fixpoint unravel (s : list Z) (lin : Z) : list Z :=
  match s with
  | [] => []
  | d :: ds => (lin / numel ds) mod d :: unravel ds lin
  end.

(** [t.reshape(target)]: at most one entry may be -1 and is then inferred. *)
Definition infer_shape (n : Z) (target : list Z) : option (list Z) :=
  let holes := filter (fun d => d =? -1) target in
  let known := filter (fun d => negb (d =? -1)) target in
  if existsb (fun d => d <? 0) known then None
  else match holes with
       | [] => if numel target =? n then Some target else None
       | [_] =>
           let p := numel known in
           if (p =? 0) || negb (n mod p =? 0) then None
           else Some (map (fun d => if d =? -1 then n / p else d) target)
       | _ => None
       end.

Definition reshape (t : tensor) (target : list Z) : result tensor :=
  match infer_shape (numel (shape t)) target with
  | Some s =>
      ok {| shape := s; t_dtype := t_dtype t; t_device := t_device t;
            data := fun idx => data t (unravel (shape t) (ravel s idx)) |}
  | None => raise (RuntimeError "shape is invalid for input size")
  end.

(** [t.unsqueeze(dim)] *)
Definition unsqueeze (dim : Z) (t : tensor) : result tensor :=
  let n := ndim t in
  let d := if dim <? 0 then dim + n + 1 else dim in
  if (0 <=? d) && (d <=? n) then
    let k := Z.to_nat d in
    ok {| shape := (firstn k (shape t) ++ 1 :: skipn k (shape t))%list;
          t_dtype := t_dtype t; t_device := t_device t;
          data := fun idx => data t (firstn k idx ++ skipn (S k) idx)%list |}
  else raise (IndexError "Dimension out of range").

(** [t.expand(sizes)]: sizes are matched against the shape from the last
    dimension backwards; -1 keeps a dimension, a dimension of size 1 may
    grow, and extra leading sizes add dimensions.  Both lists are given
    reversed. *)
Fixpoint expand_shape (sizes s : list Z) : option (list Z) :=
  match sizes, s with
  | [], [] => Some []
  | [], _ :: _ => None
  | n :: sizes', [] =>
      if 0 <=? n then option_map (cons n) (expand_shape sizes' []) else None
  | n :: sizes', d :: s' =>
      if (n =? -1) || (n =? d) then option_map (cons d) (expand_shape sizes' s')
      else if (d =? 1) && (0 <=? n) then option_map (cons n) (expand_shape sizes' s')
      else None
  end.

Fixpoint expand_index (s idx : list Z) : list Z :=
  match s, idx with
  | d :: s', i :: idx' => (if d =? 1 then 0 else i) :: expand_index s' idx'
  | _, _ => []
  end.

Definition expand (sizes : list Z) (t : tensor) : result tensor :=
  match expand_shape (rev sizes) (rev (shape t)) with
  | Some s =>
      ok {| shape := rev s; t_dtype := t_dtype t; t_device := t_device t;
            data := fun idx => data t (rev (expand_index (rev (shape t)) (rev idx))) |}
  | None => raise (RuntimeError "The expanded size of the tensor must match the existing size")
  end.

(** [torch.cat(ts, dim)]: every operand has the shape of the first except
    along [dim]; operands live on one device; dtypes are promoted.  (The
    exemption for 1-D empty operands is left out: every operand reaching
    [cat] below has four dimensions.) *)
Fixpoint shape_eqb (s1 s2 : list Z) : bool :=
  match s1, s2 with
  | [], [] => true
  | x :: xs, y :: ys => (x =? y) && shape_eqb xs ys
  | _, _ => false
  end.

Fixpoint same_except (d : nat) (s1 s2 : list Z) : bool :=
  match s1, s2 with
  | [], [] => true
  | x :: xs, y :: ys =>
      match d with
      | O => shape_eqb xs ys
      | S d' => (x =? y) && same_except d' xs ys
      end
  | _, _ => false
  end.

Definition dim_size (d : nat) (t : tensor) : Z := nth d (shape t) 0.

Fixpoint set_nth (d : nat) (v : Z) (l : list Z) : list Z :=
  match l, d with
  | [], _ => []
  | _ :: xs, O => v :: xs
  | x :: xs, S d' => x :: set_nth d' v xs
  end.

Fixpoint cat_pick (d : nat) (t0 : tensor) (rest : list tensor) (i : Z) : tensor * Z :=
  match rest with
  | [] => (t0, i)
  | t1 :: rest' =>
      if i <? dim_size d t0 then (t0, i) else cat_pick d t1 rest' (i - dim_size d t0)
  end.

Definition cat (ts : list tensor) (dim : Z) : result tensor :=
  match ts with
  | [] => raise (RuntimeError "torch.cat(): expected a non-empty list of Tensors")
  | t0 :: rest =>
      let n := ndim t0 in
      let dz := if dim <? 0 then dim + n else dim in
      if negb ((0 <=? dz) && (dz <? n)) then raise (IndexError "Dimension out of range")
      else
        let d := Z.to_nat dz in
        if negb (forallb (fun t => same_except d (shape t0) (shape t)) rest) then
          raise (RuntimeError "Sizes of tensors must match except in the concatenated dimension")
        else if negb (forallb (fun t => device_eqb (t_device t0) (t_device t)) rest) then
          raise (RuntimeError "Expected all tensors to be on the same device")
        else
          ok {| shape := set_nth d (fold_right (fun t acc => dim_size d t + acc) 0 ts) (shape t0);
                t_dtype := fold_right (fun t acc => promote_types (t_dtype t) acc) (t_dtype t0) rest;
                t_device := t_device t0;
                data := fun idx =>
                          let '(t, i) := cat_pick d t0 rest (nth d idx 0) in
                          data t (set_nth d i idx) |}
  end.
End Tensor.

Arguments Tensor {A} shape t_dtype t_device data.

Section TensorViews.
Variable A : Type.

(** Subscripts: [:], an integer, and [start:]. *)
Inductive index : Type := Full | At (i : Z) | From (start : Z).

Definition wrap (i d : Z) : Z := if i <? 0 then i + d else i.
Definition slice_start (a d : Z) : Z := Z.min d (Z.max 0 (wrap a d)).

Fixpoint getitem_shape (ix : list index) (s : list Z) : option (list Z) :=
  match ix, s with
  | [], _ => Some s
  | _ :: _, [] => None
  | Full :: ix', d :: s' => option_map (cons d) (getitem_shape ix' s')
  | At i :: ix', d :: s' =>
      if (0 <=? wrap i d) && (wrap i d <? d) then getitem_shape ix' s' else None
  | From a :: ix', d :: s' =>
      option_map (cons (d - slice_start a d)) (getitem_shape ix' s')
  end.

Fixpoint getitem_index (ix : list index) (s idx : list Z) : list Z :=
  match ix, s with
  | [], _ | _, [] => idx
  | Full :: ix', _ :: s' =>
      match idx with
      | i :: idx' => i :: getitem_index ix' s' idx'
      | [] => []
      end
  | At i :: ix', d :: s' => wrap i d :: getitem_index ix' s' idx
  | From a :: ix', d :: s' =>
      match idx with
      | i :: idx' => (i + slice_start a d) :: getitem_index ix' s' idx'
      | [] => []
      end
  end.

(** [t[ix]] *)
Definition getitem (t : tensor A) (ix : list index) : result (tensor A) :=
  match getitem_shape ix (shape t) with
  | Some s =>
      ok {| shape := s; t_dtype := t_dtype t; t_device := t_device t;
            data := fun idx => data t (getitem_index ix (shape t) idx) |}
  | None => raise (IndexError "index out of range")
  end.

(** [t.squeeze(0)] *)
Definition squeeze0 (t : tensor A) : tensor A :=
  match shape t with
  | 1 :: s' =>
      {| shape := s'; t_dtype := t_dtype t; t_device := t_device t;
         data := fun idx => data t (0 :: idx) |}
  | _ => t
  end.

(** [torch.split(t, k)] along dimension 0: pieces of [k] rows, the last one
    possibly shorter; an empty dimension gives one empty piece. *)
Definition chunk (t : tensor A) (start len : Z) (rest : list Z) : tensor A :=
  {| shape := len :: rest; t_dtype := t_dtype t; t_device := t_device t;
     data := fun idx => match idx with
                        | i :: idx' => data t ((start + i) :: idx')
                        | [] => data t []
                        end |}.

Definition split (t : tensor A) (k : Z) : result (list (tensor A)) :=
  match shape t with
  | [] => raise (RuntimeError "split expects at least a 1-dimensional tensor")
  | b :: rest =>
      if k <=? 0 then raise (RuntimeError "split expects split_size be positive")
      else if b =? 0 then ok [t]
      else ok (map (fun i => chunk t (Z.of_nat i * k) (Z.min k (b - Z.of_nat i * k)) rest)
                   (seq 0 (Z.to_nat ((b + k - 1) / k))))
  end.

(** [t.cpu()], [t.to(dev)] *)
Definition to (dev : device) (t : tensor A) : tensor A :=
  {| shape := shape t; t_dtype := t_dtype t; t_device := dev; data := data t |}.

(** [nn.functional.interpolate(t, size)] in its default nearest mode:
    output position [i] reads input position [floor (i * in / size)].  The
    framework takes the floor of a float32 product; for in = 28 and
    size = 128 the scale 7/32 is exact, so both agree. *)
Fixpoint nearest (size : Z) (dims idx : list Z) : list Z :=
  match dims, idx with
  | d :: dims', i :: idx' => Z.min (i * d / size) (d - 1) :: nearest size dims' idx'
  | _, _ => []
  end.

Definition interpolate (t : tensor A) (size : Z) : result (tensor A) :=
  match shape t with
  | b :: c :: sp =>
      if negb ((1 <=? Z.of_nat (List.length sp)) && (Z.of_nat (List.length sp) <=? 3)) then
        raise (RuntimeError "interpolate expects 3-D, 4-D or 5-D input")
      else if negb (forallb (fun d => 0 <? d) sp && (0 <? size)) then
        raise (RuntimeError "Input and output sizes should be greater than 0")
      else
        ok {| shape := b :: c :: map (fun _ => size) sp;
              t_dtype := t_dtype t; t_device := t_device t;
              data := fun idx => match idx with
                                 | bi :: ci :: r => data t (bi :: ci :: nearest size sp r)
                                 | _ => data t idx
                                 end |}
  | _ => raise (RuntimeError "interpolate expects 3-D, 4-D or 5-D input")
  end.
(** [message.unsqueeze(-1).unsqueeze(-1).expand(-1, -1, h, w)] *)
Definition broadcast (h w : Z) (message : tensor A) : result (tensor A) :=
  m1 <~ unsqueeze (-1) message ;;
  m2 <~ unsqueeze (-1) m1 ;;
  expand [-1; -1; h; w] m2.

(** What [expand(-1, -1, h, w)] makes of a trailing dimension of size 1. *)
Definition grown (n : Z) : Z := if (n =? -1) || (n =? 1) then 1 else n.
End TensorViews.

(** ** Configuration *)

Module options.
(** Modelled from the spec: [HiDDenConfiguration] of [options.py], a holder
    of hyper-parameters with the fields H, W, encoder_channels,
    encoder_blocks, message_length, encoder_loss, encoder_mode and
    decoder_blocks.  [encoder_mode] is read with
    [getattr(config, "encoder_mode", None)], so it may be absent. *)
Record HiDDenConfiguration : Type := {
  H : Z;
  W : Z;
  encoder_channels : Z;
  encoder_blocks : Z;
  encoder_loss : string;
  message_length : Z;
  decoder_blocks : Z;
  encoder_mode : option string
}.
End options.

(** ** Numeric layers

    What a constructor call allocates is recorded as its name and sizes; the
    values its parameters start from and the values each layer computes are
    the business of an instance of [Numerics]. *)

Inductive alloc : Type := Alloc (kind : string) (sizes : list Z).

Class Numerics (A : Type) : Type := {
  weights : Type;
  init : alloc -> weights;
  conv_bn_relu_k : weights -> weights -> bool -> tensor A -> list Z -> A;
  bn_track_k : weights -> weights -> tensor A -> weights;
  conv2d_k : weights -> tensor A -> list Z -> A;
  vit_k : weights -> option Z -> tensor A -> list Z -> A;
  linear_k : weights -> tensor A -> list Z -> A;
  preprocess_k : list (tensor A) -> list Z -> A;
  pooler_k : weights -> bool -> tensor A -> list Z -> A;
  attention_k : weights -> bool -> Z -> tensor A -> list Z -> A
}.

Section Layers.
Context {A : Type} {N : Numerics A}.

(** Where a module's parameters live ([module.to(...)]). *)
Record placement : Type := Placement { p_device : device; p_dtype : dtype }.

Definition check_input (pl : placement) (x : tensor A) : result unit :=
  if negb (device_eqb (t_device x) (p_device pl)) then
    raise (RuntimeError "Input type and weight type should be on the same device")
  else if negb (dtype_eqb (t_dtype x) (p_dtype pl)) then
    raise (RuntimeError "Input type and weight type should be the same")
  else ok tt.

(** Modelled from the spec: [ConvBNRelu] of [model/conv_bn_relu.py], "a
    convolution+normalization+activation block" mapping [channels_in]
    channels to [channels_out] and keeping the spatial size.  Its batch
    normalisation counts the batches seen while training and tracks
    running statistics; in evaluation mode it reads them only. *)
Record ConvBNRelu : Type := {
  channels_in : Z;
  channels_out : Z;
  cbr_weights : weights;
  running_stats : weights;
  num_batches_tracked : Z
}.

(** Modelled from the spec: the forward pass of [ConvBNRelu].  It wants a
    4-D input with [channels_in] channels placed with the parameters; while
    training it counts the batch and refreshes the running statistics. *)
Definition ConvBNRelu_forward (training : bool) (pl : placement)
    (m : ConvBNRelu) (x : tensor A) : result (tensor A) * ConvBNRelu :=
  match shape x with
  | [b; c; h; w] =>
      if negb (c =? channels_in m) then
        (raise (RuntimeError "expected input to have channels_in channels"), m)
      else match check_input pl x with
           | raise e => (raise e, m)
           | ok _ =>
               (ok {| shape := [b; channels_out m; h; w];
                      t_dtype := t_dtype x; t_device := t_device x;
                      data := conv_bn_relu_k (cbr_weights m) (running_stats m) training x |},
                if training then
                  {| channels_in := channels_in m; channels_out := channels_out m;
                     cbr_weights := cbr_weights m;
                     running_stats := bn_track_k (cbr_weights m) (running_stats m) x;
                     num_batches_tracked := num_batches_tracked m + 1 |}
                else m)
           end
  | _ => (raise (RuntimeError "expected 4D input"), m)
  end.

(** [nn.Sequential] applied to [x]: the stages in order *)
Fixpoint Sequential_forward (training : bool) (pl : placement)
    (layers : list ConvBNRelu) (x : tensor A) : result (tensor A) * list ConvBNRelu :=
  match layers with
  | [] => (ok x, [])
  | l :: ls =>
      match ConvBNRelu_forward training pl l x with
      | (ok y, l') =>
          let (r, ls') := Sequential_forward training pl ls y in (r, l' :: ls')
      | (raise e, l') => (raise e, l' :: ls)
      end
  end.

(** [nn.Conv2d(in_channels, out_channels, kernel_size)], stride 1 and no
    padding. *)
Record Conv2d : Type := {
  in_channels : Z;
  out_channels : Z;
  kernel_size : Z;
  conv_weights : weights
}.

Definition Conv2d_forward (pl : placement) (m : Conv2d) (x : tensor A)
  : result (tensor A) :=
  match shape x with
  | [b; c; h; w] =>
      if negb (c =? in_channels m) then
        raise (RuntimeError "expected input to have in_channels channels")
      else if (h <? kernel_size m) || (w <? kernel_size m) then
        raise (RuntimeError "Kernel size can't be greater than actual input size")
      else
        _ <~ check_input pl x ;;
        ok {| shape := [b; out_channels m; h - kernel_size m + 1; w - kernel_size m + 1];
              t_dtype := t_dtype x; t_device := t_device x;
              data := conv2d_k (conv_weights m) x |}
  | _ => raise (RuntimeError "expected 4D input")
  end.

(** [nn.Linear(in_features, out_features)] *)
Record Linear : Type := {
  in_features : Z;
  out_features : Z;
  linear_weights : weights
}.

Definition Linear_forward (pl : placement) (m : Linear) (x : tensor A)
  : result (tensor A) :=
  match rev (shape x) with
  | last :: front =>
      if negb (last =? in_features m) then
        raise (RuntimeError "mat1 and mat2 shapes cannot be multiplied")
      else
        _ <~ check_input pl x ;;
        ok {| shape := rev (out_features m :: front);
              t_dtype := t_dtype x; t_device := t_device x;
              data := linear_k (linear_weights m) x |}
  | [] => raise (RuntimeError "mat1 and mat2 shapes cannot be multiplied")
  end.

(** [vit_pytorch.ViT]: images are cut into [patch_size] squares, a class
    token and position embeddings for [num_patches + 1] tokens are added,
    and the class token is mapped to [num_classes] outputs.  Dropout draws
    from the global generator while the module is training. *)
Record ViT : Type := {
  image_size : Z * Z;
  patch_size : Z;
  num_classes : Z;
  dim : Z;
  depth : Z;
  heads : Z;
  mlp_dim : Z;
  dropout : Z * Z;
  emb_dropout : Z * Z;
  vit_weights : weights
}.

Definition num_patches (m : ViT) : Z :=
  (fst (image_size m) / patch_size m) * (snd (image_size m) / patch_size m).

Definition stochastic (m : ViT) : bool :=
  (0 <? fst (dropout m)) || (0 <? fst (emb_dropout m)).

Definition ViT_forward (training : bool) (pl : placement) (m : ViT)
    (x : tensor A) : M Z (tensor A) :=
  fun generator =>
    match shape x with
    | [b; c; h; w] =>
        if negb ((h mod patch_size m =? 0) && (w mod patch_size m =? 0)) then
          (raise (RuntimeError "Shape mismatch, can't divide axis"), generator)
        else if negb (c =? 3) then
          (raise (RuntimeError "mat1 and mat2 shapes cannot be multiplied"), generator)
        else if num_patches m <? (h / patch_size m) * (w / patch_size m) then
          (raise (RuntimeError "The size of tensor a must match the size of tensor b"), generator)
        else match check_input pl x with
             | raise e => (raise e, generator)
             | ok _ =>
                 let live := training && stochastic m in
                 (ok {| shape := [b; num_classes m];
                        t_dtype := t_dtype x; t_device := t_device x;
                        data := vit_k (vit_weights m)
                                      (if live then Some generator else None) x |},
                  if live then generator + 1 else generator)
             end
    | _ => (raise (RuntimeError "expected 4D input"), generator)
    end.
End Layers.

(** ** The pretrained backbone ([transformers])

    [from_pretrained] fetches a checkpoint by name.  What the named
    checkpoint contains is not part of this repository: it is looked up in a
    [hub], and statements quantify over it. *)

Section Backbone.
Context {A : Type} {N : Numerics A}.

Record checkpoint : Type := {
  hidden_size : Z;
  num_attention_heads : Z;
  num_hidden_layers : Z;
  ck_image_size : Z;
  ck_patch_size : Z;
  ck_weights : weights
}.

Definition hub : Type := string -> option checkpoint.

(** The preprocessor resizes every image to the checkpoint's resolution and
    normalises it; it answers with a float32 batch in host memory. *)
Record ViTFeatureExtractor : Type := { size : Z }.

Definition is_rgb_image (t : tensor A) : bool :=
  match shape t with
  | [c; h; w] => (c =? 3) && (0 <? h) && (0 <? w)
  | _ => false
  end.

Definition ViTFeatureExtractor_call (fe : ViTFeatureExtractor)
    (images : list (tensor A)) : result (tensor A) :=
  match images with
  | [] => raise (ValueError "no images to preprocess")
  | _ =>
      if forallb is_rgb_image images then
        ok {| shape := [Z.of_nat (List.length images); 3; size fe; size fe];
              t_dtype := float32; t_device := cpu;
              data := preprocess_k images |}
      else raise (ValueError "Unsupported image shape")
  end.

Record ViTModel : Type := {
  config : checkpoint;
  output_attentions : bool;
  model_training : bool
}.

Record BaseModelOutputWithPooling : Type := {
  pooler_output : tensor A;
  attentions : option (list (tensor A))
}.

(** Number of tokens: one per patch and the class token in front. *)
Definition seq_len (c : checkpoint) : Z :=
  (ck_image_size c / ck_patch_size c) * (ck_image_size c / ck_patch_size c) + 1.

Definition ViTModel_forward (pl : placement) (m : ViTModel)
    (pixel_values : tensor A) : result BaseModelOutputWithPooling :=
  let c := config m in
  match shape pixel_values with
  | [b; ch; h; w] =>
      if negb (ch =? 3) then
        raise (ValueError "channel dimension of the pixel values does not match the configuration")
      else if negb ((h =? ck_image_size c) && (w =? ck_image_size c)) then
        raise (ValueError "Input image size doesn't match model")
      else
        _ <~ check_input pl pixel_values ;;
        ok {| pooler_output :=
                {| shape := [b; hidden_size c];
                   t_dtype := t_dtype pixel_values; t_device := t_device pixel_values;
                   data := pooler_k (ck_weights c) (model_training m) pixel_values |};
              attentions :=
                if output_attentions m then
                  Some (map (fun l =>
                               {| shape := [b; num_attention_heads c; seq_len c; seq_len c];
                                  t_dtype := t_dtype pixel_values;
                                  t_device := t_device pixel_values;
                                  data := attention_k (ck_weights c) (model_training m)
                                                      (Z.of_nat l) pixel_values |})
                            (seq 0 (Z.to_nat (num_hidden_layers c))))
                else None |}
  | _ => raise (ValueError "expected 4D pixel values")
  end.
End Backbone.

(** ** The encoder *)

Section Encoder.
Context {A : Type} {N : Numerics A}.

Record Encoder : Type := {
  H : Z;
  W : Z;
  conv_channels : Z;
  num_blocks : Z;
  encoder_loss : string;
  encoder_mode : string;
  conv_layers : list ConvBNRelu;
  final_layer : Conv2d;
  after_concat_layer : ConvBNRelu;
  vit : option ViT;
  feature_extractor : option ViTFeatureExtractor;
  model : option ViTModel;
  linear : option Linear;
  training : bool;
  parameters : placement
}.

(** *** Construction

    The state threaded through construction is the list of allocations
    made so far, oldest first. *)

Definition allocate (a : alloc) : M (list alloc) weights :=
  fun made =>
    match a with
    | Alloc _ sizes =>
        if existsb (fun d => d <? 0) sizes then
          (raise (RuntimeError "Trying to create tensor with negative dimension"), made)
        else (ok (init a), (made ++ [a])%list)
    end.

Definition new_ConvBNRelu (cin cout : Z) : M (list alloc) ConvBNRelu :=
  w <- allocate (Alloc "ConvBNRelu" [cin; cout]) ;;
  ret {| channels_in := cin; channels_out := cout; cbr_weights := w;
         running_stats := init (Alloc "BatchNorm2d.running" [cout]);
         num_batches_tracked := 0 |}.

Definition new_Conv2d (cin cout k : Z) : M (list alloc) Conv2d :=
  w <- allocate (Alloc "Conv2d" [cin; cout; k]) ;;
  ret {| in_channels := cin; out_channels := cout; kernel_size := k;
         conv_weights := w |}.

Definition new_Linear (fin fout : Z) : M (list alloc) Linear :=
  w <- allocate (Alloc "Linear" [fin; fout]) ;;
  ret {| in_features := fin; out_features := fout; linear_weights := w |}.

Definition new_ViT (image_size : Z * Z)
    (patch_size num_classes dim depth heads mlp_dim : Z)
    (dropout emb_dropout : Z * Z) : M (list alloc) ViT :=
  if negb ((fst image_size mod patch_size =? 0) && (snd image_size mod patch_size =? 0)) then
    throw (AssertionError "Image dimensions must be divisible by the patch size.")
  else
    w <- allocate (Alloc "ViT"
           [(fst image_size / patch_size) * (snd image_size / patch_size) + 1;
            num_classes; dim; mlp_dim]) ;;
    ret {| image_size := image_size; patch_size := patch_size;
           num_classes := num_classes; dim := dim; depth := depth; heads := heads;
           mlp_dim := mlp_dim; dropout := dropout; emb_dropout := emb_dropout;
           vit_weights := w |}.

Definition from_pretrained (h : hub) (what name : string) : M (list alloc) checkpoint :=
  fun made =>
    match h name with
    | Some c => (ok c, (made ++ [Alloc (what ++ ".from_pretrained " ++ name)%string []])%list)
    | None => (raise (OSError (name ++ " is not a valid model identifier")), made)
    end.

(** [for _ in range(n): xs.append(body)] *)
Fixpoint repeatM {S X} (n : nat) (body : M S X) : M S (list X) :=
  match n with
  | O => ret []
  | S n' => x <- body ;; xs <- repeatM n' body ;; ret (x :: xs)
  end.

Definition invalid_mode (mode : string) : exn :=
  ValueError ("encoder_mode '" ++ mode
              ++ "' is not valid. Choose 'vit', 'dino-output', or 'dino-attention'.").

Definition __init__ (h : hub) (config : options.HiDDenConfiguration)
  : M (list alloc) Encoder :=
  let H := options.H config in
  let W := options.W config in
  let conv_channels := options.encoder_channels config in
  let num_blocks := options.encoder_blocks config in
  let encoder_loss := options.encoder_loss config in
  match options.encoder_mode config with
  | None =>
      throw (ValueError "encoder_mode is missing in HiDDenConfiguration. Please set it properly.")
  | Some encoder_mode =>
      first <- new_ConvBNRelu 3 conv_channels ;;
      more <- repeatM (Z.to_nat (options.encoder_blocks config - 1))
                      (new_ConvBNRelu conv_channels conv_channels) ;;
      let layers := first :: more in
      final_layer <- new_Conv2d conv_channels 3 1 ;;
      let build after_concat_layer vit feature_extractor model linear :=
        {| H := H; W := W; conv_channels := conv_channels; num_blocks := num_blocks;
           encoder_loss := encoder_loss; encoder_mode := encoder_mode;
           conv_layers := layers; final_layer := final_layer;
           after_concat_layer := after_concat_layer;
           vit := vit; feature_extractor := feature_extractor; model := model;
           linear := linear;
           training := true;
           parameters := {| p_device := cpu; p_dtype := float32 |} |} in
      if (encoder_mode =? "vit")%string then
        after_concat_layer <-
          new_ConvBNRelu (conv_channels + 3 + options.message_length config) conv_channels ;;
        vit <- new_ViT (options.H config, options.W config) 32
                       (128 * 128 * conv_channels) 1024
                       (options.decoder_blocks config / 2) 16 2048 (1, 10) (1, 10) ;;
        ret (build after_concat_layer (Some vit) None None None)
      else if (encoder_mode =? "dino-output")%string then
        after_concat_layer <-
          new_ConvBNRelu (conv_channels + 3 + options.message_length config) conv_channels ;;
        fe <- from_pretrained h "ViTFeatureExtractor" "facebook/dino-vits8" ;;
        m <- from_pretrained h "ViTModel" "facebook/dino-vits8" ;;
        linear <- new_Linear 384 (128 * 128 * conv_channels) ;;
        ret (build after_concat_layer None
               (Some {| size := ck_image_size fe |})
               (Some {| config := m; output_attentions := false; model_training := false |})
               (Some linear))
      else if (encoder_mode =? "dino-attention")%string then
        after_concat_layer <- new_ConvBNRelu 39 conv_channels ;;
        fe <- from_pretrained h "ViTFeatureExtractor" "facebook/dino-vits8" ;;
        m <- from_pretrained h "ViTModel" "facebook/dino-vits8" ;;
        ret (build after_concat_layer None
               (Some {| size := ck_image_size fe |})
               (Some {| config := m; output_attentions := true; model_training := false |})
               None)
      else throw (invalid_mode encoder_mode)
  end.

(** *** [nn.Module] housekeeping *)

Definition with_conv_layers (ls : list ConvBNRelu) (e : Encoder) : Encoder :=
  {| H := H e; W := W e; conv_channels := conv_channels e; num_blocks := num_blocks e;
     encoder_loss := encoder_loss e; encoder_mode := encoder_mode e;
     conv_layers := ls; final_layer := final_layer e;
     after_concat_layer := after_concat_layer e;
     vit := vit e; feature_extractor := feature_extractor e; model := model e;
     linear := linear e; training := training e; parameters := parameters e |}.

Definition with_after_concat_layer (l : ConvBNRelu) (e : Encoder) : Encoder :=
  {| H := H e; W := W e; conv_channels := conv_channels e; num_blocks := num_blocks e;
     encoder_loss := encoder_loss e; encoder_mode := encoder_mode e;
     conv_layers := conv_layers e; final_layer := final_layer e;
     after_concat_layer := l;
     vit := vit e; feature_extractor := feature_extractor e; model := model e;
     linear := linear e; training := training e; parameters := parameters e |}.

(** [encoder.to(device)] *)
Definition Encoder_to (dev : device) (e : Encoder) : Encoder :=
  {| H := H e; W := W e; conv_channels := conv_channels e; num_blocks := num_blocks e;
     encoder_loss := encoder_loss e; encoder_mode := encoder_mode e;
     conv_layers := conv_layers e; final_layer := final_layer e;
     after_concat_layer := after_concat_layer e;
     vit := vit e; feature_extractor := feature_extractor e; model := model e;
     linear := linear e; training := training e;
     parameters := {| p_device := dev; p_dtype := p_dtype (parameters e) |} |}.

(** [encoder.train(mode)] sets the flag on the module and on every
    submodule, the backbone included; [encoder.eval()] is [train(False)]. *)
Definition train (mode : bool) (e : Encoder) : Encoder :=
  {| H := H e; W := W e; conv_channels := conv_channels e; num_blocks := num_blocks e;
     encoder_loss := encoder_loss e; encoder_mode := encoder_mode e;
     conv_layers := conv_layers e; final_layer := final_layer e;
     after_concat_layer := after_concat_layer e;
     vit := vit e; feature_extractor := feature_extractor e;
     model := option_map (fun m => {| config := config m;
                                      output_attentions := output_attentions m;
                                      model_training := mode |}) (model e);
     linear := linear e; training := mode; parameters := parameters e |}.

Definition eval (e : Encoder) : Encoder := train false e.

(** *** Forward passes

    A call runs against the module itself (whose buffers it may update),
    the global random generator and the machine. *)
Record runtime : Type := {
  self : Encoder;
  generator : Z;
  cuda_available : bool
}.

Definition on_self (f : Encoder -> Encoder) (r : runtime) : runtime :=
  {| self := f (self r); generator := generator r; cuda_available := cuda_available r |}.

Definition attribute {X} (name : string) (f : Encoder -> option X) : M runtime X :=
  fun r => match f (self r) with
           | Some x => (ok x, r)
           | None => (raise (AttributeError ("'Encoder' object has no attribute '" ++ name ++ "'")%string), r)
           end.

Definition call_vit (x : tensor A) : M runtime (tensor A) :=
  m <- attribute "vit" vit ;;
  fun r =>
    let (res, g) := ViT_forward (training (self r)) (parameters (self r)) m x (generator r) in
    (res, {| self := self r; generator := g; cuda_available := cuda_available r |}).

Definition call_conv_layers (x : tensor A) : M runtime (tensor A) :=
  fun r =>
    let e := self r in
    let (res, ls) := Sequential_forward (training e) (parameters e) (conv_layers e) x in
    (res, on_self (with_conv_layers ls) r).

Definition call_after_concat_layer (x : tensor A) : M runtime (tensor A) :=
  fun r =>
    let e := self r in
    let (res, l) := ConvBNRelu_forward (training e) (parameters e) (after_concat_layer e) x in
    (res, on_self (with_after_concat_layer l) r).

Definition call_final_layer (x : tensor A) : M runtime (tensor A) :=
  fun r => (Conv2d_forward (parameters (self r)) (final_layer (self r)) x, r).

Definition call_linear (x : tensor A) : M runtime (tensor A) :=
  m <- attribute "linear" linear ;;
  fun r => (Linear_forward (parameters (self r)) m x, r).

Definition call_feature_extractor (images : list (tensor A)) : M runtime (tensor A) :=
  fe <- attribute "feature_extractor" feature_extractor ;;
  lift (ViTFeatureExtractor_call fe images).

Definition call_model (inputs : tensor A) : M runtime BaseModelOutputWithPooling :=
  m <- attribute "model" model ;;
  fun r => (ViTModel_forward (parameters (self r)) m inputs, r).

(** [x.to('cuda')] *)
Definition to_cuda (x : tensor A) : M runtime (tensor A) :=
  fun r => if cuda_available r then (ok (to cuda x), r)
           else (raise (RuntimeError "Found no NVIDIA driver on your system"), r).

(** [message.unsqueeze(-1).unsqueeze(-1).expand(-1, -1, self.H, self.W)] *)
Definition expand_message (message : tensor A) : M runtime (tensor A) :=
  h <- gets (fun r => H (self r)) ;;
  w <- gets (fun r => W (self r)) ;;
  lift (broadcast h w message).

(** [xs[-1]] on the tuple of attention maps *)
Definition last_attention (xs : option (list (tensor A))) : result (tensor A) :=
  match xs with
  | None => raise (TypeError "'NoneType' object is not subscriptable")
  | Some l =>
      match rev l with
      | x :: _ => ok x
      | [] => raise (IndexError "tuple index out of range")
      end
  end.

(** Lines 90-92: the class token's row of the last attention map, without
    its first entry, as a 28 x 28 grid per head, enlarged to 128 x 128. *)
Definition attention_map (xs : option (list (tensor A))) : result (tensor A) :=
  last <~ last_attention xs ;;
  attention <~ getitem last [Full; Full; At 0; From 1] ;;
  d0 <~ shape_at attention 0 ;;
  d1 <~ shape_at attention 1 ;;
  attention <~ reshape attention [d0; d1; 28; 28] ;;
  interpolate attention 128.

Definition forward_vit (image message : tensor A) : M runtime (tensor A) :=
  semantic_representation <- call_vit image ;;
  b <- lift (shape_at image 0) ;;
  c <- gets (fun r => conv_channels (self r)) ;;
  semantic_representation <- lift (reshape semantic_representation [b; c; 128; 128]) ;;
  expanded_message <- expand_message message ;;
  encoded_image <- call_conv_layers image ;;
  concat <- lift (cat [expanded_message; semantic_representation; image] 1) ;;
  im_w <- call_after_concat_layer concat ;;
  im_w <- call_final_layer im_w ;;
  ret im_w.

Definition forward_dino_output (image message : tensor A) : M runtime (tensor A) :=
  pieces <- lift (split (to cpu image) 1) ;;
  let image_list := map (@squeeze0 A) pieces in
  inputs <- call_feature_extractor image_list ;;
  inputs <- to_cuda inputs ;;
  outputs <- call_model inputs ;;
  let semantic_representation := pooler_output outputs in
  semantic_representation <- call_linear semantic_representation ;;
  b <- lift (shape_at image 0) ;;
  c <- gets (fun r => conv_channels (self r)) ;;
  semantic_representation <- lift (reshape semantic_representation [b; c; 128; 128]) ;;
  expanded_message <- expand_message message ;;
  concat <- lift (cat [expanded_message; semantic_representation; image] 1) ;;
  im_w <- call_after_concat_layer concat ;;
  im_w <- call_final_layer im_w ;;
  ret im_w.

(** Lines 87-95 of [forward_dino_attention]: the tensor handed to the
    fusion block. *)
Definition concat_dino_attention (image message : tensor A) : M runtime (tensor A) :=
  pieces <- lift (split (to cpu image) 1) ;;
  let image_list := map (@squeeze0 A) pieces in
  inputs <- call_feature_extractor image_list ;;
  inputs <- to_cuda inputs ;;
  outputs <- call_model inputs ;;
  attention <- lift (attention_map (attentions outputs)) ;;
  expanded_message <- expand_message message ;;
  lift (cat [expanded_message; attention; image] 1).

Definition forward_dino_attention (image message : tensor A) : M runtime (tensor A) :=
  concat <- concat_dino_attention image message ;;
  im_w <- call_after_concat_layer concat ;;
  im_w <- call_final_layer im_w ;;
  ret im_w.

Definition forward (image message : tensor A) : M runtime (tensor A) :=
  mode <- gets (fun r => encoder_mode (self r)) ;;
  if (mode =? "vit")%string then forward_vit image message
  else if (mode =? "dino-output")%string then forward_dino_output image message
  else if (mode =? "dino-attention")%string then forward_dino_attention image message
  else throw (invalid_mode mode).
End Encoder.

(** ** Vocabulary of the statements *)

Section Vocabulary.
Context {A : Type} {N : Numerics A}.
Implicit Types r : runtime (A := A).
Implicit Types image message out : tensor A.

Definition block (cin cout : Z) : ConvBNRelu :=
  {| channels_in := cin; channels_out := cout;
     cbr_weights := init (Alloc "ConvBNRelu" [cin; cout]);
     running_stats := init (Alloc "BatchNorm2d.running" [cout]);
     num_batches_tracked := 0 |}.

(** The allocations every recognised or unrecognised mode starts with. *)
Definition trunk_allocs (c blocks : Z) : list alloc :=
  (Alloc "ConvBNRelu" [3; c]
     :: repeat (Alloc "ConvBNRelu" [c; c]) (Z.to_nat (blocks - 1))
     ++ [Alloc "Conv2d" [c; 3; 1]])%list.

(** What [__init__] has done when it reaches the mode dispatch. *)
Definition trunk (c blocks : Z) : list ConvBNRelu :=
  block 3 c :: repeat (block c c) (Z.to_nat (blocks - 1)).

Definition projection (c : Z) : Conv2d :=
  {| in_channels := c; out_channels := 3; kernel_size := 1;
     conv_weights := init (Alloc "Conv2d" [c; 3; 1]) |}.

Definition vit_of (cfg : options.HiDDenConfiguration) : ViT :=
  let c := options.encoder_channels cfg in
  let hh := options.H cfg in
  let ww := options.W cfg in
  {| image_size := (hh, ww); patch_size := 32; num_classes := 128 * 128 * c;
     dim := 1024; depth := options.decoder_blocks cfg / 2; heads := 16;
     mlp_dim := 2048; dropout := (1, 10); emb_dropout := (1, 10);
     vit_weights := init (Alloc "ViT" [hh / 32 * (ww / 32) + 1; 128 * 128 * c; 1024; 2048]) |}.

(** The strategy-specific part of a constructed encoder. *)
Definition strategy_state (h : hub) (cfg : options.HiDDenConfiguration) (e : Encoder) : Prop :=
  let c := options.encoder_channels cfg in
  (encoder_mode e = "vit"
   /\ after_concat_layer e = block (c + 3 + options.message_length cfg) c
   /\ vit e = Some (vit_of cfg)
   /\ feature_extractor e = None /\ model e = None /\ linear e = None)
  \/ (exists ck,
        h "facebook/dino-vits8" = Some ck
        /\ encoder_mode e = "dino-output"
        /\ after_concat_layer e = block (c + 3 + options.message_length cfg) c
        /\ vit e = None
        /\ feature_extractor e = Some {| size := ck_image_size ck |}
        /\ model e = Some {| config := ck; output_attentions := false;
                             model_training := false |}
        /\ linear e = Some {| in_features := 384; out_features := 128 * 128 * c;
                              linear_weights := init (Alloc "Linear" [384; 128 * 128 * c]) |})
  \/ (exists ck,
        h "facebook/dino-vits8" = Some ck
        /\ encoder_mode e = "dino-attention"
        /\ after_concat_layer e = block 39 c
        /\ vit e = None
        /\ feature_extractor e = Some {| size := ck_image_size ck |}
        /\ model e = Some {| config := ck; output_attentions := true;
                             model_training := false |}
        /\ linear e = None).



(** The facts shared by the three strategies once the fusion block and the
    final projection have run on [cat [message; semantic; image]]. *)
Definition fused (e : Encoder) image message out (cs : Z) : Prop :=
  H e = 128 /\ W e = 128
  /\ exists B L,
       shape image = [B; 3; 128; 128] /\ shape message = [B; L]
       /\ L + cs + 3 = channels_in (after_concat_layer e)
       /\ shape out = [B; out_channels (final_layer e);
                       128 - kernel_size (final_layer e) + 1;
                       128 - kernel_size (final_layer e) + 1]
       /\ t_device out = t_device image
       /\ t_device message = t_device image
       /\ t_device image = p_device (parameters e)
       /\ t_dtype out = p_dtype (parameters e).

(** A module with its buffers, flags and placement as construction
    leaves them. *)
Definition reset (l : ConvBNRelu) : ConvBNRelu :=
  {| channels_in := channels_in l; channels_out := channels_out l;
     cbr_weights := cbr_weights l;
     running_stats := init (Alloc "BatchNorm2d.running" [channels_out l]);
     num_batches_tracked := 0 |}.

Definition arch (e : Encoder) : Encoder :=
  {| H := H e; W := W e; conv_channels := conv_channels e; num_blocks := num_blocks e;
     encoder_loss := encoder_loss e; encoder_mode := encoder_mode e;
     conv_layers := map reset (conv_layers e); final_layer := final_layer e;
     after_concat_layer := reset (after_concat_layer e);
     vit := vit e; feature_extractor := feature_extractor e;
     model := option_map (fun m => {| config := config m;
                                      output_attentions := output_attentions m;
                                      model_training := false |}) (model e);
     linear := linear e; training := true;
     parameters := {| p_device := cpu; p_dtype := float32 |} |}.

(** [e] is an encoder that [__init__] returned for [cfg], possibly moved,
    switched between training and evaluation, and used since. *)
Definition constructed (h : hub) (cfg : options.HiDDenConfiguration) (e : Encoder) : Prop :=
  exists made made', __init__ h cfg made = (ok (arch e), made').

(** [m] relates the state it starts from to the state it ends in by [P],
    whatever it returns or raises. *)
Definition frames {X} (P : runtime -> runtime -> Prop) (m : M runtime X) : Prop :=
  forall r res r', m r = (res, r') -> P r r'.

Definition untouched {X} (m : M runtime X) : Prop :=
  forall r res r', m r = (res, r') -> r' = r.

Definition unchanged_in_eval r r' : Prop := training (self r) = false -> r' = r.


Definition widths (l : ConvBNRelu) : Z * Z := (channels_in l, channels_out l).







(** What each strategy allocates after the trunk and the projection. *)
Definition strategy_allocs (cfg : options.HiDDenConfiguration) (mode : string) : list alloc :=
  let c := options.encoder_channels cfg in
  let fusion := Alloc "ConvBNRelu" [c + 3 + options.message_length cfg; c] in
  let fe := Alloc "ViTFeatureExtractor.from_pretrained facebook/dino-vits8" [] in
  let backbone := Alloc "ViTModel.from_pretrained facebook/dino-vits8" [] in
  if (mode =? "vit")%string then
    [fusion; Alloc "ViT" [options.H cfg / 32 * (options.W cfg / 32) + 1;
                          128 * 128 * c; 1024; 2048]]
  else if (mode =? "dino-output")%string then
    [fusion; fe; backbone; Alloc "Linear" [384; 128 * 128 * c]]
  else if (mode =? "dino-attention")%string then
    [Alloc "ConvBNRelu" [39; c]; fe; backbone]
  else [].

(** A size that [expand] accepts for a dimension of size 1. *)
Definition expandable (n : Z) : Prop := n = -1 \/ 0 <= n.

(** The state a call in the pretrained strategies leaves alone. *)
Definition trunk_and_generator_kept r r' : Prop :=
  generator r' = generator r /\ conv_layers (self r') = conv_layers (self r).

End Vocabulary.

(** ** A concrete setting *)

Section Concrete.
Context {N : Numerics Z}.

(** The checkpoint the code names: ViT-S/8 of DINO, 384 wide, 6 heads,
    12 layers, 224 x 224 inputs cut into 8 x 8 patches. *)
Definition dino_vits8 : checkpoint :=
  {| hidden_size := 384; num_attention_heads := 6; num_hidden_layers := 12;
     ck_image_size := 224; ck_patch_size := 8;
     ck_weights := init (Alloc "facebook/dino-vits8" []) |}.

Definition the_hub : hub :=
  fun name => if (name =? "facebook/dino-vits8")%string then Some dino_vits8 else None.

Definition sample_config (mode : option string) (side : Z) : options.HiDDenConfiguration :=
  {| options.H := side; options.W := side; options.encoder_channels := 64;
     options.encoder_blocks := 4; options.encoder_loss := "mse";
     options.message_length := 30; options.decoder_blocks := 7;
     options.encoder_mode := mode |}.

Definition sample_image (b side : Z) (dev : device) : tensor Z :=
  {| shape := [b; 3; side; side]; t_dtype := float32; t_device := dev;
     data := fun idx => ravel [b; 3; side; side] idx |}.

Definition sample_message (b : Z) (dev : device) : tensor Z :=
  {| shape := [b; 30]; t_dtype := float32; t_device := dev;
     data := fun idx => ravel [b; 30] idx |}.

(** Construction from nothing allocated. *)
Definition construct (cfg : options.HiDDenConfiguration) : result Encoder * list alloc :=
  __init__ the_hub cfg [].

(** A newly constructed encoder, moved to [dev], with the generator at 0. *)
Definition fresh (mode : string) (side : Z) (dev : device) : result runtime :=
  e <~ fst (construct (sample_config (Some mode) side)) ;;
  ok {| self := Encoder_to dev e; generator := 0; cuda_available := true |}.

Definition in_eval (r : runtime) : runtime :=
  {| self := eval (self r); generator := generator r;
     cuda_available := cuda_available r |}.


Definition pixel_values (b : Z) : tensor Z :=
  {| shape := [b; 3; 224; 224]; t_dtype := float32; t_device := cuda;
     data := fun idx => ravel [b; 3; 224; 224] idx |}.

Definition dino_with_attentions : ViTModel :=
  {| config := dino_vits8; output_attentions := true; model_training := false |}.
End Concrete.

(** Under [zeros] every layer outputs zeros: shapes, dtypes, devices, errors
    and state are as in any other interpretation, which is what running the
    model on concrete inputs needs. *)
#[export] Instance zeros : Numerics Z := {|
  weights := unit;
  init := fun _ => tt;
  conv_bn_relu_k := fun _ _ _ _ _ => 0;
  bn_track_k := fun _ _ _ => tt;
  conv2d_k := fun _ _ _ => 0;
  vit_k := fun _ _ _ _ => 0;
  linear_k := fun _ _ _ => 0;
  preprocess_k := fun _ _ => 0;
  pooler_k := fun _ _ _ _ => 0;
  attention_k := fun _ _ _ _ _ => 0
|}.

(** Under [visible_draws] the transformer outputs 1 + the generator state
    its dropout drew from (0 without dropout), the fusion block copies the
    last channel of the semantic representation (the fourth from the end of
    the concatenation) and the final projection copies channel 0: what the
    dropout drew can be read off the output. *)
Definition visible_draws : Numerics Z := {|
  weights := unit;
  init := fun _ => tt;
  conv_bn_relu_k := fun _ _ _ x idx => data x (set_nth 1 (dim_size 1 x - 4) idx);
  bn_track_k := fun _ _ _ => tt;
  conv2d_k := fun _ x idx => data x (set_nth 1 0 idx);
  vit_k := fun _ g _ _ => match g with Some n => n + 1 | None => 0 end;
  linear_k := fun _ _ _ => 0;
  preprocess_k := fun _ _ => 0;
  pooler_k := fun _ _ _ _ => 0;
  attention_k := fun _ _ _ _ _ => 0
|}.

(** * Properties *)

(** ** Running monadic code backwards *)

Lemma bind_ok {S X Y} (m : M S X) (k : X -> M S Y) s y s' :
  bind m k s = (ok y, s') ->
  exists x s1, m s = (ok x, s1) /\ k x s1 = (ok y, s').
Proof.
  unfold bind. destruct (m s) as [[x | e] s1]; intro E.
  - exists x, s1. split; [reflexivity | exact E].
  - discriminate.
Qed.

Lemma lift_ok {S X} (r : result X) (s s' : S) x :
  lift r s = (ok x, s') -> r = ok x /\ s' = s.
Proof. unfold lift. intro E. inversion E. split; reflexivity. Qed.

Lemma gets_ok {S X} (f : S -> X) (s s' : S) x :
  gets f s = (ok x, s') -> x = f s /\ s' = s.
Proof. unfold gets. intro E. inversion E. split; reflexivity. Qed.

Lemma ret_ok {S X} (x y : X) (s s' : S) :
  ret x s = (ok y, s') -> y = x /\ s' = s.
Proof. unfold ret. intro E. inversion E. split; reflexivity. Qed.

Lemma rbind_ok {X Y} (r : result X) (k : X -> result Y) y :
  rbind r k = ok y -> exists x, r = ok x /\ k x = ok y.
Proof.
  destruct r as [x | e]; simpl; intro E; [exists x; auto | discriminate].
Qed.

(** Peel one layer of sequencing off a hypothesis that says a computation
    returned. *)
Ltac leaf H :=
  match type of H with
  | lift _ _ = (ok _, _) =>
      let E := fresh "Hst" in apply lift_ok in H; destruct H as [H E]; subst
  | gets _ _ = (ok _, _) =>
      let E := fresh "Hst" in apply gets_ok in H; destruct H as [H E]; subst
  | ret _ _ = (ok _, _) =>
      let E := fresh "Hst" in apply ret_ok in H; destruct H as [H E]; subst
  end.

Ltac step H :=
  match type of H with
  | bind _ _ _ = (ok _, _) =>
      let x := fresh "x" in let s := fresh "s" in
      let H1 := fresh "Hrun" in
      apply bind_ok in H; destruct H as (x & s & H1 & H); try leaf H1
  | rbind _ _ = ok _ =>
      let x := fresh "x" in let H1 := fresh "Hres" in
      apply rbind_ok in H; destruct H as (x & H1 & H)
  | _ => leaf H
  end.

Ltac step_as H H1 :=
  let x := fresh "x" in let s := fresh "s" in
  apply bind_ok in H; destruct H as (x & s & H1 & H); try leaf H1.

(** ** Construction *)

Section Construction.
Context {A : Type} {N : Numerics A}.
Variable h : hub (A := A).

Lemma new_ConvBNRelu_run cin cout made :
  0 <= cin -> 0 <= cout ->
  new_ConvBNRelu cin cout made
  = (ok (block cin cout), (made ++ [Alloc "ConvBNRelu" [cin; cout]])%list).
Proof.
  intros Hi Ho. unfold new_ConvBNRelu, bind, allocate, ret. simpl.
  destruct (cin <? 0) eqn:E1; [apply Z.ltb_lt in E1; lia |].
  destruct (cout <? 0) eqn:E2; [apply Z.ltb_lt in E2; lia |].
  reflexivity.
Qed.

Lemma new_ConvBNRelu_inv cin cout made l made' :
  new_ConvBNRelu cin cout made = (ok l, made') -> 0 <= cin /\ 0 <= cout.
Proof.
  unfold new_ConvBNRelu, bind, allocate, ret. simpl.
  destruct (cin <? 0) eqn:E1; [discriminate |].
  destruct (cout <? 0) eqn:E2; [discriminate |].
  apply Z.ltb_ge in E1, E2. auto.
Qed.

Lemma repeat_blocks c n made :
  0 <= c ->
  repeatM n (new_ConvBNRelu c c) made
  = (ok (repeat (block c c) n),
     (made ++ repeat (Alloc "ConvBNRelu" [c; c]) n)%list).
Proof.
  intro Hc. revert made. induction n as [| n IH]; intro made; simpl.
  - unfold ret. now rewrite app_nil_r.
  - unfold bind at 1. rewrite new_ConvBNRelu_run by assumption.
    unfold bind at 1. rewrite IH. unfold ret.
    now rewrite <- app_assoc.
Qed.

Lemma new_Conv2d_run c made :
  0 <= c ->
  new_Conv2d c 3 1 made
  = (ok {| in_channels := c; out_channels := 3; kernel_size := 1;
           conv_weights := init (Alloc "Conv2d" [c; 3; 1]) |},
     (made ++ [Alloc "Conv2d" [c; 3; 1]])%list).
Proof.
  intro Hc. unfold new_Conv2d, bind, allocate, ret. simpl.
  destruct (c <? 0) eqn:E1; [apply Z.ltb_lt in E1; lia | reflexivity].
Qed.

Lemma init_inv cfg made e made' :
  __init__ h cfg made = (ok e, made') ->
  let c := options.encoder_channels cfg in
  options.encoder_mode cfg = Some (encoder_mode e)
  /\ 0 <= c
  /\ H e = options.H cfg /\ W e = options.W cfg /\ conv_channels e = c
  /\ num_blocks e = options.encoder_blocks cfg
  /\ conv_layers e = trunk c (options.encoder_blocks cfg)
  /\ final_layer e = projection c
  /\ training e = true
  /\ parameters e = {| p_device := cpu; p_dtype := float32 |}
  /\ strategy_state h cfg e.
Proof.
  intros E c. unfold __init__ in E.
  destruct (options.encoder_mode cfg) as [mode |] eqn:Em; [| discriminate].
  step E. pose proof (new_ConvBNRelu_inv _ _ _ Hrun) as [_ Hc].
  rewrite new_ConvBNRelu_run in Hrun by lia. inversion Hrun; subst; clear Hrun.
  step E. rewrite repeat_blocks in Hrun by assumption.
  inversion Hrun; subst; clear Hrun.
  step E. rewrite new_Conv2d_run in Hrun by assumption.
  inversion Hrun; subst; clear Hrun.
  unfold strategy_state.
  destruct (mode =? "vit")%string eqn:E1.
  { apply String.eqb_eq in E1. subst mode.
    step E. pose proof (new_ConvBNRelu_inv _ _ _ Hrun) as [Hi _].
    rewrite new_ConvBNRelu_run in Hrun by assumption.
    inversion Hrun; subst; clear Hrun.
    step E. unfold new_ViT in Hrun.
    destruct (negb _) in Hrun; [discriminate |].
    step Hrun. step Hrun. subst.
    unfold allocate in Hrun0.
    destruct (existsb _ _) in Hrun0; [discriminate |].
    inversion Hrun0; subst; clear Hrun0.
    step E.
    repeat (split; [solve [reflexivity | assumption] |]).
    left. repeat split; reflexivity. }
  destruct (mode =? "dino-output")%string eqn:E2.
  { apply String.eqb_eq in E2. subst mode.
    step E. pose proof (new_ConvBNRelu_inv _ _ _ Hrun) as [Hi _].
    rewrite new_ConvBNRelu_run in Hrun by assumption.
    inversion Hrun; subst; clear Hrun.
    step E. unfold from_pretrained in Hrun.
    destruct (h "facebook/dino-vits8") as [ck |] eqn:Eh; [| discriminate].
    inversion Hrun; subst; clear Hrun.
    step E. unfold from_pretrained in Hrun. rewrite Eh in Hrun.
    inversion Hrun; subst; clear Hrun.
    step E. unfold new_Linear in Hrun. step Hrun. step Hrun. subst.
    unfold allocate in Hrun0.
    destruct (existsb _ _) in Hrun0; [discriminate |].
    inversion Hrun0; subst; clear Hrun0.
    step E.
    repeat (split; [solve [reflexivity | assumption] |]).
    right; left. eexists. repeat split; reflexivity. }
  destruct (mode =? "dino-attention")%string eqn:E3.
  { apply String.eqb_eq in E3. subst mode.
    step E. rewrite new_ConvBNRelu_run in Hrun by lia.
    inversion Hrun; subst; clear Hrun.
    step E. unfold from_pretrained in Hrun.
    destruct (h "facebook/dino-vits8") as [ck |] eqn:Eh; [| discriminate].
    inversion Hrun; subst; clear Hrun.
    step E. unfold from_pretrained in Hrun. rewrite Eh in Hrun.
    inversion Hrun; subst; clear Hrun.
    step E.
    repeat (split; [solve [reflexivity | assumption] |]).
    right; right. eexists. repeat split; reflexivity. }
  discriminate.
Qed.
End Construction.

Section ConstructionClaims.
Context {A : Type} {N : Numerics A}.
Variable h : hub (A := A).


(** C6: in strategy 'vit' construction builds a vision transformer with
    patch size 32, 128 * 128 * conv_channels outputs and depth
    decoder_blocks // 2, sized to the configured resolution. *)
Theorem vit_hyperparameters cfg made e made' :
  options.encoder_mode cfg = Some "vit" ->
  __init__ h cfg made = (ok e, made') ->
  exists v,
    vit e = Some v
    /\ patch_size v = 32
    /\ num_classes v = 128 * 128 * conv_channels e
    /\ depth v = options.decoder_blocks cfg / 2
    /\ image_size v = (options.H cfg, options.W cfg)
    /\ conv_channels e = options.encoder_channels cfg.
Proof.
  intros Em E. apply init_inv in E.
  destruct E as (Hm & _ & _ & _ & Hcc & _ & _ & _ & _ & _ & Hs).
  rewrite Em in Hm. injection Hm as Hm.
  destruct Hs as [(_ & _ & Hv & _) | [(ck & _ & Hm' & _) | (ck & _ & Hm' & _)]];
    try (rewrite Hm' in Hm; discriminate).
  exists (vit_of cfg). rewrite Hcc. repeat split; auto.
Qed.


(** With no stage asked for, the trunk still has its first stage. *)
Lemma trunk_never_empty cfg made e made' :
  __init__ h cfg made = (ok e, made') ->
  Z.of_nat (List.length (conv_layers e)) = Z.max 1 (options.encoder_blocks cfg).
Proof.
  intro E. apply init_inv in E.
  destruct E as (_ & _ & _ & _ & _ & _ & Hl & _).
  rewrite Hl. unfold trunk. simpl List.length. rewrite repeat_length. lia.
Qed.
End ConstructionClaims.

(** ** Shapes through the tensor operations *)

Section Shapes.
Variable A : Type.
Implicit Types t a b c : tensor A.

Lemma shape_eqb_eq s1 s2 : shape_eqb s1 s2 = true -> s1 = s2.
Proof.
  revert s2. induction s1 as [| x xs IH]; destruct s2 as [| y ys]; simpl;
    try discriminate; auto.
  intro E. apply andb_true_iff in E as [E1 E2].
  apply Z.eqb_eq in E1. apply IH in E2. congruence.
Qed.

Lemma same_except_channel s n cb hh ww :
  same_except 1 s [n; cb; hh; ww] = true -> exists ca, s = [n; ca; hh; ww].
Proof.
  destruct s as [| x [| y s']]; simpl; try discriminate.
  - intro E. apply andb_true_iff in E as [_ E]. discriminate.
  - intro E. apply andb_true_iff in E as [E1 E2].
    apply Z.eqb_eq in E1. apply shape_eqb_eq in E2. subst.
    now exists y.
Qed.

Lemma unsqueeze_last t :
  unsqueeze (-1) t
  = ok {| shape := (shape t ++ [1])%list; t_dtype := t_dtype t; t_device := t_device t;
          data := fun idx =>
                    data t (firstn (List.length (shape t)) idx
                            ++ skipn (S (List.length (shape t))) idx)%list |}.
Proof.
  unfold unsqueeze, ndim.
  replace (-1 <? 0) with true by reflexivity.
  replace (-1 + Z.of_nat (List.length (shape t)) + 1)
    with (Z.of_nat (List.length (shape t))) by lia.
  rewrite Nat2Z.id.
  destruct (0 <=? Z.of_nat (List.length (shape t))) eqn:E1;
    [| apply Z.leb_gt in E1; lia].
  rewrite Z.leb_refl. simpl andb. cbv iota.
  rewrite firstn_all, skipn_all. reflexivity.
Qed.

Lemma expand_unit n (rest : option (list Z)) r :
  (if (n =? -1) || (n =? 1) then option_map (cons 1) rest
   else if (1 =? 1) && (0 <=? n) then option_map (cons n) rest else None) = Some r ->
  exists r', rest = Some r' /\ r = grown n :: r'.
Proof.
  unfold grown. destruct ((n =? -1) || (n =? 1)).
  - destruct rest; simpl; intro E; inversion E. eauto.
  - destruct ((1 =? 1) && (0 <=? n)); [| discriminate].
    destruct rest; simpl; intro E; inversion E. eauto.
Qed.

Lemma broadcast_inv h w (message e : tensor A) :
  broadcast h w message = ok e ->
  exists B L,
    shape message = [B; L]
    /\ shape e = [B; L; grown h; grown w]
    /\ t_dtype e = t_dtype message /\ t_device e = t_device message.
Proof.
  unfold broadcast. rewrite unsqueeze_last. simpl rbind.
  rewrite unsqueeze_last. simpl rbind.
  unfold expand. cbn [shape t_dtype t_device].
  rewrite !rev_app_distr. simpl rev at 1 2 3.
  destruct (expand_shape _ _) as [s |] eqn:E; [| discriminate].
  intro R. inversion R; subst e; clear R. cbn [shape t_dtype t_device].
  simpl app in E. cbn [expand_shape] in E.
  apply expand_unit in E as (r1 & E & ->).
  apply expand_unit in E as (r2 & E & ->).
  remember (rev (shape message)) as rs eqn:Hrs.
  assert (shape message = rev rs) as Hm by (subst rs; now rewrite rev_involutive).
  destruct rs as [| l [| b [| z rs']]]; simpl in E; try discriminate.
  inversion E; subst r2.
  exists b, l. rewrite Hm. simpl. auto.
Qed.

Lemma cat3_inv a b c t n cb hh ww :
  cat [a; b; c] 1 = ok t ->
  shape b = [n; cb; hh; ww] ->
  exists ca cc,
    shape a = [n; ca; hh; ww] /\ shape c = [n; cc; hh; ww]
    /\ shape t = [n; ca + (cb + (cc + 0)); hh; ww]
    /\ t_device b = t_device a /\ t_device c = t_device a
    /\ t_device t = t_device a
    /\ t_dtype t = promote_types (t_dtype b) (promote_types (t_dtype c) (t_dtype a)).
Proof.
  unfold cat. intros E Hb.
  replace (1 <? 0) with false in E by reflexivity.
  destruct (negb ((0 <=? 1) && (1 <? ndim a))); [discriminate |].
  change (Z.to_nat 1) with 1%nat in E.
  destruct (forallb (fun t0 => same_except 1 (shape a) (shape t0)) [b; c]) eqn:Es;
    [| discriminate].
  destruct (forallb (fun t0 => device_eqb (t_device a) (t_device t0)) [b; c]) eqn:Ed;
    [| discriminate].
  simpl in E. inversion E; subst t; clear E. cbn [shape t_dtype t_device].
  cbn [forallb] in Es, Ed.
  apply andb_true_iff in Es as [Es1 Es2]. apply andb_true_iff in Es2 as [Es2 _].
  apply andb_true_iff in Ed as [Ed1 Ed2]. apply andb_true_iff in Ed2 as [Ed2 _].
  rewrite Hb in Es1. apply same_except_channel in Es1 as [ca Ha].
  rewrite Ha in Es2.
  assert (exists cc, shape c = [n; cc; hh; ww]) as [cc Hc].
  { destruct (shape c) as [| x [| y s']]; cbn [same_except] in Es2; try discriminate;
      apply andb_true_iff in Es2 as [E1 E2]; try discriminate.
    apply Z.eqb_eq in E1. apply shape_eqb_eq in E2. subst. now exists y. }
  exists ca, cc. unfold dim_size. rewrite Ha, Hb, Hc. simpl.
  assert (forall x y, device_eqb x y = true -> y = x) as Hdev
    by (intros [] []; simpl; congruence).
  repeat split; auto.
Qed.

Lemma reshape_side_128 t x y t' :
  reshape t [x; y; 128; 128] = ok t' ->
  (exists x' y', shape t' = [x'; y'; 128; 128])
  /\ t_dtype t' = t_dtype t /\ t_device t' = t_device t.
Proof.
  unfold reshape.
  destruct (infer_shape _ _) as [s |] eqn:E; [| discriminate].
  intro R. inversion R; subst t'; clear R. cbn [shape t_dtype t_device].
  split; [| auto].
  unfold infer_shape in E. simpl in E.
  destruct (x =? -1), (y =? -1); simpl in E;
    repeat match type of E with
           | (if ?g then _ else _) = _ => destruct g; try discriminate
           end;
    inversion E; eauto.
Qed.
End Shapes.

(** ** Shapes through the layers *)

Section LayerShapes.
Context {A : Type} {N : Numerics A}.

Lemma check_input_ok pl (x : tensor A) u :
  check_input pl x = ok u ->
  t_device x = p_device pl /\ t_dtype x = p_dtype pl.
Proof.
  unfold check_input.
  destruct (t_device x), (p_device pl); simpl; try discriminate;
    destruct (t_dtype x), (p_dtype pl); simpl; try discriminate; auto.
Qed.

Lemma ConvBNRelu_forward_inv tr pl m (x y : tensor A) m' :
  ConvBNRelu_forward tr pl m x = (ok y, m') ->
  exists b h w,
    shape x = [b; channels_in m; h; w]
    /\ shape y = [b; channels_out m; h; w]
    /\ t_dtype y = t_dtype x /\ t_device y = t_device x
    /\ t_device x = p_device pl /\ t_dtype x = p_dtype pl.
Proof.
  unfold ConvBNRelu_forward.
  destruct (shape x) as [| b [| c [| h [| w [| ? ?]]]]]; try discriminate.
  destruct (c =? channels_in m) eqn:Ec; simpl; [| discriminate].
  destruct (check_input pl x) eqn:Ek; [| discriminate].
  apply check_input_ok in Ek as [Hd Ht]. apply Z.eqb_eq in Ec. subst c.
  intro E. inversion E; subst. exists b, h, w. simpl. auto 10.
Qed.

Lemma Conv2d_forward_inv pl m (x y : tensor A) :
  Conv2d_forward pl m x = ok y ->
  exists b h w,
    shape x = [b; in_channels m; h; w]
    /\ shape y = [b; out_channels m; h - kernel_size m + 1; w - kernel_size m + 1]
    /\ t_dtype y = t_dtype x /\ t_device y = t_device x.
Proof.
  unfold Conv2d_forward.
  destruct (shape x) as [| b [| c [| h [| w [| ? ?]]]]]; try discriminate.
  destruct (c =? in_channels m) eqn:Ec; simpl; [| discriminate].
  destruct ((h <? kernel_size m) || (w <? kernel_size m)); [discriminate |].
  destruct (check_input pl x) eqn:Ek; [| discriminate]. simpl.
  apply Z.eqb_eq in Ec. subst c.
  intro E. inversion E; subst. exists b, h, w. simpl. auto.
Qed.

Lemma ViT_forward_inv tr pl m (x y : tensor A) g g' :
  ViT_forward tr pl m x g = (ok y, g') ->
  exists b h w,
    shape x = [b; 3; h; w]
    /\ shape y = [b; num_classes m]
    /\ t_dtype y = t_dtype x /\ t_device y = t_device x
    /\ t_device x = p_device pl /\ t_dtype x = p_dtype pl.
Proof.
  unfold ViT_forward.
  destruct (shape x) as [| b [| c [| h [| w [| ? ?]]]]]; try discriminate.
  destruct (negb _); [discriminate |].
  destruct (c =? 3) eqn:Ec; simpl; [| discriminate].
  destruct (_ <? _); [discriminate |].
  destruct (check_input pl x) eqn:Ek; [| discriminate].
  apply check_input_ok in Ek as [Hd Ht]. apply Z.eqb_eq in Ec. subst c.
  intro E. inversion E; subst. exists b, h, w. simpl. auto 10.
Qed.

Lemma Linear_forward_inv pl m (x y : tensor A) :
  Linear_forward pl m x = ok y ->
  t_dtype y = t_dtype x /\ t_device y = t_device x.
Proof.
  unfold Linear_forward.
  destruct (rev (shape x)); [discriminate |].
  destruct (negb _); [discriminate |].
  destruct (check_input pl x); [| discriminate]. simpl.
  intro E. inversion E; subst. simpl. auto.
Qed.

Lemma ViTModel_forward_inv pl m (px : tensor A) out :
  ViTModel_forward pl m px = ok out ->
  exists b,
    shape px = [b; 3; ck_image_size (config m); ck_image_size (config m)]
    /\ t_device px = p_device pl /\ t_dtype px = p_dtype pl
    /\ t_dtype (pooler_output out) = t_dtype px
    /\ t_device (pooler_output out) = t_device px
    /\ forall last, last_attention (attentions out) = ok last ->
         shape last = [b; num_attention_heads (config m);
                       seq_len (config m); seq_len (config m)]
         /\ t_dtype last = t_dtype px /\ t_device last = t_device px.
Proof.
  unfold ViTModel_forward.
  destruct (shape px) as [| b [| c [| h [| w [| ? ?]]]]]; try discriminate.
  destruct (c =? 3) eqn:Ec; simpl; [| discriminate].
  destruct ((h =? _) && (w =? _)) eqn:Es; simpl; [| discriminate].
  destruct (check_input pl px) eqn:Ek; [| discriminate]. simpl.
  apply check_input_ok in Ek as [Hd Ht]. apply Z.eqb_eq in Ec.
  apply andb_true_iff in Es as [Eh Ew]. apply Z.eqb_eq in Eh, Ew. subst c h w.
  intro E. inversion E; subst out; clear E. exists b. cbn [pooler_output attentions t_dtype t_device].
  repeat split; auto;
    unfold last_attention in H0; destruct (output_attentions m); try discriminate;
    rewrite <- map_rev in H0;
    destruct (rev (seq 0 (Z.to_nat (num_hidden_layers (config m))))); try discriminate;
    simpl in H0; inversion H0; reflexivity.
Qed.

Lemma squeeze0_chunk (t : tensor A) start rest :
  shape (squeeze0 (chunk t start 1 rest)) = rest.
Proof. reflexivity. Qed.

(** Splitting a batch into single images and preprocessing them needs a
    batch of at least one RGB image, and gives as many rows as images. *)
Lemma preprocess_inv fe (image : tensor A) pieces px :
  split (to cpu image) 1 = ok pieces ->
  ViTFeatureExtractor_call fe (map (@squeeze0 A) pieces) = ok px ->
  exists b h w,
    shape image = [b; 3; h; w] /\ 0 < b
    /\ shape px = [b; 3; size fe; size fe]
    /\ t_dtype px = float32 /\ t_device px = cpu.
Proof.
  unfold split. cbn [to shape].
  destruct (shape image) as [| b0 rest] eqn:Hs; [discriminate |].
  replace (1 <=? 0) with false by reflexivity.
  destruct (b0 =? 0) eqn:E0.
  - apply Z.eqb_eq in E0. subst b0.
    intro E. inversion E; subst pieces; clear E.
    unfold ViTFeatureExtractor_call. cbn [map].
    assert (squeeze0 (to cpu image) = to cpu image) as ->
      by (unfold squeeze0; cbn [to shape]; now rewrite Hs).
    cbn [forallb]. unfold is_rgb_image at 1. cbn [to shape]. rewrite Hs.
    destruct rest as [| h [| w [| ? ?]]]; simpl; discriminate.
  - apply Z.eqb_neq in E0.
    replace ((b0 + 1 - 1) / 1) with b0 by (rewrite Z.div_1_r; lia).
    intro E. inversion E; subst pieces; clear E.
    unfold ViTFeatureExtractor_call.
    destruct (Z.to_nat b0) as [| n] eqn:En; [discriminate |].
    rewrite !length_map, length_seq.
    cbn [seq map].
    replace (Z.min 1 (b0 - Z.of_nat 0 * 1)) with 1 by lia.
    cbn [forallb]. unfold is_rgb_image at 1. rewrite squeeze0_chunk.
    destruct rest as [| c [| h [| w [| ? ?]]]];
      try (cbn [andb]; discriminate).
    destruct (c =? 3) eqn:Ec; [| cbn [andb]; discriminate].
    apply Z.eqb_eq in Ec. subst c.
    destruct (_ && _); [| discriminate].
    intro E. inversion E; subst px; clear E. cbn [shape t_dtype t_device].
    exists b0, h, w.
    assert (Z.pos (Pos.of_succ_nat n) = b0) as -> by lia.
    repeat split; auto; lia.
Qed.
End LayerShapes.

Section AttentionShapes.
Context {A : Type} {N : Numerics A}.

Lemma grown_128 n : grown n = 128 -> n = 128.
Proof.
  unfold grown. destruct ((n =? -1) || (n =? 1)); [discriminate | auto].
Qed.

Lemma grown_nonneg n : 0 <= n -> grown n = n.
Proof.
  unfold grown. intro Hn.
  destruct (n =? -1) eqn:E1; [apply Z.eqb_eq in E1; lia |].
  destruct (n =? 1) eqn:E2; [apply Z.eqb_eq in E2; simpl; lia | reflexivity].
Qed.

(** A reshape to four sizes, the last two given: they are kept, and with
    the first two given as well the element count is checked. *)
Lemma reshape_tail (t t' : tensor A) x y p q :
  p <> -1 -> q <> -1 ->
  reshape t [x; y; p; q] = ok t' ->
  (exists x' y', shape t' = [x'; y'; p; q])
  /\ (x <> -1 -> y <> -1 ->
      shape t' = [x; y; p; q] /\ numel [x; y; p; q] = numel (shape t)
      /\ 0 <= x /\ 0 <= y)
  /\ t_dtype t' = t_dtype t /\ t_device t' = t_device t
  /\ data t' = fun idx => data t (unravel (shape t) (ravel (shape t') idx)).
Proof.
  intros Hp Hq. unfold reshape.
  destruct (infer_shape _ _) as [s |] eqn:E; [| discriminate].
  intro R. inversion R; subst t'; clear R. cbn [shape t_dtype t_device data].
  apply Z.eqb_neq in Hp, Hq.
  unfold infer_shape in E. cbn [filter map] in E. rewrite Hp, Hq in E.
  cbn [negb] in E.
  split; [| split; [| auto]].
  - destruct (x =? -1), (y =? -1); cbn [negb existsb] in E;
      repeat match type of E with
             | (if ?g then _ else _) = _ => destruct g; try discriminate
             end;
      inversion E; eauto.
  - intros Hx Hy. apply Z.eqb_neq in Hx, Hy. rewrite Hx, Hy in E.
    cbn [negb existsb] in E.
    destruct (x <? 0) eqn:Ex; [discriminate |].
    destruct (y <? 0) eqn:Ey; [discriminate |].
    cbn [orb] in E.
    destruct (_ || _); [discriminate |].
    destruct (numel [x; y; p; q] =? numel (shape t)) eqn:En; [| discriminate].
    apply Z.eqb_eq in En. apply Z.ltb_ge in Ex, Ey.
    inversion E. auto.
Qed.

Lemma attention_map_inv xs (last sem : tensor A) b hd T T' :
  last_attention xs = ok last ->
  shape last = [b; hd; T; T'] ->
  attention_map xs = ok sem ->
  (exists x y, shape sem = [x; y; 128; 128])
  /\ t_dtype sem = t_dtype last /\ t_device sem = t_device last
  /\ (b <> -1 -> hd <> -1 ->
      shape sem = [b; hd; 128; 128]
      /\ 0 < T
      /\ b * (hd * (28 * 28)) = b * (hd * (T' - slice_start 1 T'))
      /\ 0 <= b /\ 0 <= hd
      /\ forall bi ci i j,
           data sem [bi; ci; i; j]
           = data last
               (getitem_index [Full; Full; At 0; From 1] [b; hd; T; T']
                  (unravel [b; hd; T' - slice_start 1 T']
                     (ravel [b; hd; 28; 28]
                        [bi; ci; Z.min (i * 28 / 128) 27; Z.min (j * 28 / 128) 27])))).
Proof.
  intros Hl Hs. unfold attention_map. rewrite Hl. cbn [rbind].
  unfold getitem. rewrite Hs. cbn [getitem_shape].
  unfold wrap at 1 2. replace (0 <? 0) with false by reflexivity.
  cbn [Z.leb Z.compare andb].
  destruct (0 <? T) eqn:ET; [| discriminate].
  cbn [option_map rbind shape_at shape nth_error].
  intro E. step E. rename x into rs.
  apply reshape_tail in Hres; [| lia | lia].
  destruct Hres as ((x' & y' & Hsh) & Hex & Hdt & Hdv & Hda).
  cbn [shape data] in Hda.
  unfold interpolate in E. rewrite Hsh in E. simpl in E.
  inversion E; subst sem; clear E. cbn [shape t_dtype t_device data].
  split; [eauto |]. split; [exact Hdt |]. split; [exact Hdv |].
  intros Hb Hh. destruct (Hex Hb Hh) as (Hsh' & Hn & Hb0 & Hh0).
  rewrite Hsh in Hsh'. inversion Hsh'; subst x' y'.
  cbn [shape] in Hn. unfold numel in Hn. cbn [fold_right] in Hn.
  apply Z.ltb_lt in ET.
  repeat split; auto; try lia.
  intros bi ci i j. rewrite Hda, Hsh. reflexivity.
Qed.
End AttentionShapes.

(** ** Shapes through the forward passes *)

Section ForwardShapes.
Context {A : Type} {N : Numerics A}.
Implicit Types r : runtime (A := A).
Implicit Types image message out : tensor A.

Lemma attribute_ok X name (f : Encoder -> option X) r x r' :
  attribute name f r = (ok x, r') -> f (self r) = Some x /\ r' = r.
Proof.
  unfold attribute. destruct (f (self r)); intro E; inversion E; auto.
Qed.

Lemma call_vit_inv image r y r' :
  call_vit image r = (ok y, r') ->
  self r' = self r /\ cuda_available r' = cuda_available r
  /\ exists b h w,
       shape image = [b; 3; h; w]
       /\ (exists n, shape y = [b; n])
       /\ t_dtype y = t_dtype image /\ t_device y = t_device image
       /\ t_device image = p_device (parameters (self r))
       /\ t_dtype image = p_dtype (parameters (self r)).
Proof.
  unfold call_vit. intro E. step E.
  apply attribute_ok in Hrun as [_ ->].
  destruct (ViT_forward _ _ _ _ _) as [res g] eqn:Ev.
  inversion E; subst res r'; clear E. cbn [self cuda_available].
  apply ViT_forward_inv in Ev as (b & h & w & ? & ? & ? & ? & ? & ?).
  repeat split; auto. exists b, h, w. repeat split; eauto.
Qed.

Lemma call_conv_layers_inv image r y r' :
  call_conv_layers image r = (ok y, r') ->
  exists ls, r' = on_self (with_conv_layers ls) r.
Proof.
  unfold call_conv_layers.
  destruct (Sequential_forward _ _ _ _) as [res ls].
  intro E. inversion E. eauto.
Qed.

Lemma expand_message_inv message r e r' :
  expand_message message r = (ok e, r') ->
  r' = r /\ broadcast (H (self r)) (W (self r)) message = ok e.
Proof.
  unfold expand_message. intro E. do 3 step E. auto.
Qed.

Lemma fusion_tail r1 image message em sem concat y r2 out r3 n cs b hi wi :
  broadcast (H (self r1)) (W (self r1)) message = ok em ->
  shape sem = [n; cs; 128; 128] ->
  shape image = [b; 3; hi; wi] ->
  cat [em; sem; image] 1 = ok concat ->
  call_after_concat_layer concat r1 = (ok y, r2) ->
  call_final_layer y r2 = (ok out, r3) ->
  fused (self r1) image message out cs /\ b = n.
Proof.
  intros Hb Hsem Himg Hcat Hac Hfl.
  apply broadcast_inv in Hb as (B & L & Hm & Hem & Hemt & Hemd).
  eapply cat3_inv in Hcat; [| exact Hsem].
  destruct Hcat as (ca & cc & Ha & Hc & Ht & Hd1 & Hd2 & Hd3 & Hty).
  rewrite Hem in Ha. inversion Ha; subst n ca. clear Ha.
  rewrite Himg in Hc. inversion Hc; subst b cc hi wi. clear Hc.
  unfold call_after_concat_layer in Hac.
  destruct (ConvBNRelu_forward _ _ _ _) as [res l'] eqn:Ec.
  inversion Hac; subst res r2; clear Hac.
  apply ConvBNRelu_forward_inv in Ec
    as (b1 & h1 & w1 & Hcs & Hys & Hyt & Hyd & Hcd & Hct).
  rewrite Ht in Hcs. inversion Hcs; subst b1 h1 w1. clear Hcs.
  unfold call_final_layer in Hfl. inversion Hfl; subst r3; clear Hfl.
  rename H1 into Hfl. cbn [self on_self with_after_concat_layer final_layer parameters] in Hfl.
  apply Conv2d_forward_inv in Hfl as (b2 & h2 & w2 & Hxs & Hos & Hot & Hod).
  rewrite Hys in Hxs. inversion Hxs; subst b2 h2 w2. clear Hxs.
  split; [| reflexivity].
  unfold fused.
  split; [apply grown_128; congruence |]. split; [apply grown_128; congruence |].
  exists B, L. repeat split; auto; try congruence; lia.
Qed.

Lemma forward_vit_inv image message r out r' :
  forward_vit image message r = (ok out, r') ->
  (exists cs, fused (self r) image message out cs)
  /\ t_dtype image = p_dtype (parameters (self r)).
Proof.
  unfold forward_vit. intro E.
  step_as E Hvit. apply call_vit_inv in Hvit
    as (Hself & _ & b & hi & wi & Himg & _ & _ & _ & _ & Hdt).
  step_as E Hb0. step_as E Hc. step_as E Hre.
  apply reshape_side_128 in Hre as ((x' & y' & Hsem) & _ & _).
  step_as E Hex. apply expand_message_inv in Hex as [-> Hex].
  step_as E Hcl. apply call_conv_layers_inv in Hcl as [ls ->].
  step_as E Hcat. step_as E Hac. step_as E Hfl. leaf E.
  eapply (fusion_tail (on_self (with_conv_layers ls) s) image message) in Hfl;
    [| exact Hex | exact Hsem | exact Himg | exact Hcat | exact Hac ].
  destruct Hfl as [Hf _].
  unfold fused in *. cbn in Hf. rewrite Hself in Hf. eauto.
Qed.
End ForwardShapes.

(** ** What a call may change *)

Section Frames.
Context {A : Type} {N : Numerics A}.
Implicit Types r : runtime (A := A).

Lemma reset_forward tr pl l (x : tensor A) res l' :
  ConvBNRelu_forward tr pl l x = (res, l') ->
  reset l' = reset l /\ (tr = false -> l' = l).
Proof.
  unfold ConvBNRelu_forward.
  destruct (shape x) as [| b [| c [| h [| w [| ? ?]]]]];
    try (intro E; inversion E; auto).
  destruct (negb _); [inversion E; auto |].
  destruct (check_input pl x); inversion E; auto.
  destruct tr; split; auto; discriminate.
Qed.

Lemma reset_sequential tr pl ls (x : tensor A) res ls' :
  Sequential_forward tr pl ls x = (res, ls') ->
  map reset ls' = map reset ls /\ (tr = false -> ls' = ls).
Proof.
  revert x res ls'. induction ls as [| l ls IH]; intros x res ls'; simpl.
  - intro E. inversion E. auto.
  - destruct (ConvBNRelu_forward tr pl l x) as [[y | e] l1] eqn:E1.
    + apply reset_forward in E1 as [R1 T1].
      destruct (Sequential_forward tr pl ls y) as [r2 ls2] eqn:E2.
      apply IH in E2 as [R2 T2].
      intro E. inversion E; subst. simpl. rewrite R1, R2.
      split; [reflexivity |]. intro Ht. now rewrite T1, T2.
    + apply reset_forward in E1 as [R1 T1].
      intro E. inversion E; subst. simpl. rewrite R1.
      split; [reflexivity |]. intro Ht. now rewrite T1.
Qed.
End Frames.

Section FrameRules.
Context {A : Type} {N : Numerics A}.
Implicit Types r : runtime (A := A).

Variable P : runtime (A := A) -> runtime (A := A) -> Prop.
Hypothesis P_refl : forall r, P r r.
Hypothesis P_trans : forall r1 r2 r3, P r1 r2 -> P r2 r3 -> P r1 r3.

Lemma frames_bind X Y (m : M runtime X) (k : X -> M runtime Y) :
  frames P m -> (forall x, frames P (k x)) -> frames P (bind m k).
Proof.
  intros Hm Hk r res r'. unfold bind.
  destruct (m r) as [[x | e] r1] eqn:E1; intro E.
  - eapply P_trans; [eapply Hm; eassumption | eapply Hk; eassumption].
  - inversion E; subst. eapply Hm; eassumption.
Qed.

Lemma frames_untouched X (m : M runtime X) : untouched m -> frames P m.
Proof. intros Hm r res r' E. apply Hm in E. subst. apply P_refl. Qed.

Lemma untouched_lift X (x : result X) : untouched (lift (S := runtime) x).
Proof. intros r res r' E. inversion E. reflexivity. Qed.

Lemma untouched_gets X (f : runtime -> X) : untouched (gets f).
Proof. intros r res r' E. inversion E. reflexivity. Qed.

Lemma untouched_ret X (x : X) : untouched (ret (S := runtime) x).
Proof. intros r res r' E. inversion E. reflexivity. Qed.

Lemma untouched_throw X e : untouched (throw (S := runtime) (X := X) e).
Proof. intros r res r' E. inversion E. reflexivity. Qed.

Lemma untouched_final (x : tensor A) : untouched (call_final_layer x).
Proof. intros r res r' E. inversion E. reflexivity. Qed.

Lemma untouched_linear (x : tensor A) : untouched (call_linear x).
Proof.
  intros r res r'. unfold call_linear, bind, attribute.
  destruct (linear (self r)); intro E; inversion E; reflexivity.
Qed.

Lemma untouched_feature_extractor (xs : list (tensor A)) :
  untouched (call_feature_extractor xs).
Proof.
  intros r res r'. unfold call_feature_extractor, bind, attribute, lift.
  destruct (feature_extractor (self r)); intro E; inversion E; reflexivity.
Qed.

Lemma untouched_model (x : tensor A) : untouched (call_model x).
Proof.
  intros r res r'. unfold call_model, bind, attribute.
  destruct (model (self r)); intro E; inversion E; reflexivity.
Qed.

Lemma untouched_to_cuda (x : tensor A) : untouched (to_cuda x).
Proof.
  intros r res r'. unfold to_cuda.
  destruct (cuda_available r); intro E; inversion E; reflexivity.
Qed.

Lemma untouched_expand_message (x : tensor A) : untouched (expand_message x).
Proof. intros r res r' E. inversion E. reflexivity. Qed.

Hypothesis P_vit : forall x : tensor A, frames P (call_vit x).
Hypothesis P_conv_layers : forall x : tensor A, frames P (call_conv_layers x).
Hypothesis P_after_concat : forall x : tensor A, frames P (call_after_concat_layer x).

Ltac framing :=
  repeat first
    [ apply P_vit | apply P_conv_layers | apply P_after_concat
    | apply frames_untouched;
      first [ apply untouched_lift | apply untouched_gets | apply untouched_ret
            | apply untouched_throw | apply untouched_final | apply untouched_linear
            | apply untouched_feature_extractor | apply untouched_model
            | apply untouched_to_cuda | apply untouched_expand_message ]
    | apply frames_bind; [| intro] ].

Lemma forward_vit_frames image message : frames P (forward_vit image message).
Proof. unfold forward_vit. framing. Qed.

Lemma forward_dino_output_frames image message :
  frames P (forward_dino_output image message).
Proof. unfold forward_dino_output. framing. Qed.

Lemma forward_dino_attention_frames image message :
  frames P (forward_dino_attention image message).
Proof. unfold forward_dino_attention, concat_dino_attention. framing. Qed.

Lemma forward_frames image message : frames P (forward image message).
Proof.
  unfold forward. apply frames_bind.
  - apply frames_untouched, untouched_gets.
  - intro mode.
    destruct (mode =? "vit")%string; [apply forward_vit_frames |].
    destruct (mode =? "dino-output")%string; [apply forward_dino_output_frames |].
    destruct (mode =? "dino-attention")%string; [apply forward_dino_attention_frames |].
    apply frames_untouched, untouched_throw.
Qed.
End FrameRules.

Section Evaluation.
Context {A : Type} {N : Numerics A}.
Implicit Types r : runtime (A := A).

Lemma unchanged_refl r : unchanged_in_eval r r.
Proof. intro. reflexivity. Qed.

Lemma unchanged_trans r1 r2 r3 :
  unchanged_in_eval r1 r2 -> unchanged_in_eval r2 r3 -> unchanged_in_eval r1 r3.
Proof.
  unfold unchanged_in_eval. intros H12 H23 Ht.
  specialize (H12 Ht). subst r2. auto.
Qed.

Lemma with_conv_layers_same (e : Encoder) : with_conv_layers (conv_layers e) e = e.
Proof. destruct e. reflexivity. Qed.

Lemma with_after_concat_layer_same (e : Encoder) :
  with_after_concat_layer (after_concat_layer e) e = e.
Proof. destruct e. reflexivity. Qed.

Lemma eval_vit (x : tensor A) : frames unchanged_in_eval (call_vit x).
Proof.
  intros r res r'. unfold call_vit, bind, attribute.
  destruct (vit (self r)) as [m |]; [| intro E; inversion E; apply unchanged_refl].
  destruct (ViT_forward _ _ _ _ _) as [res' g] eqn:Ev.
  intro E. inversion E; subst. intro Ht. rewrite Ht in Ev.
  unfold ViT_forward in Ev. cbn [andb] in Ev.
  destruct r as [e g0 cu]. cbn [self generator cuda_available] in *.
  repeat match type of Ev with
         | context [match ?d with _ => _ end] => destruct d
         end; inversion Ev; reflexivity.
Qed.

Lemma eval_conv_layers (x : tensor A) : frames unchanged_in_eval (call_conv_layers x).
Proof.
  intros r res r'. unfold call_conv_layers.
  destruct (Sequential_forward _ _ _ _) as [res' ls] eqn:Es.
  intro E. inversion E; subst. intro Ht.
  apply reset_sequential in Es as [_ Hs]. rewrite (Hs Ht).
  destruct r as [e g cu]. unfold on_self. cbn [self generator cuda_available].
  now rewrite with_conv_layers_same.
Qed.

Lemma eval_after_concat (x : tensor A) :
  frames unchanged_in_eval (call_after_concat_layer x).
Proof.
  intros r res r'. unfold call_after_concat_layer.
  destruct (ConvBNRelu_forward _ _ _ _) as [res' l] eqn:Es.
  intro E. inversion E; subst. intro Ht.
  apply reset_forward in Es as [_ Hs]. rewrite (Hs Ht).
  destruct r as [e g cu]. unfold on_self. cbn [self generator cuda_available].
  now rewrite with_after_concat_layer_same.
Qed.

(** C5 (amended): with the encoder in evaluation mode a forward call
    leaves the encoder and the random generator as they were, so a second
    call on the same inputs returns the same result. *)
Theorem eval_forward_stateless r image message res r' :
  training (self r) = false ->
  forward image message r = (res, r') ->
  r' = r /\ forward image message r' = (res, r').
Proof.
  intros Ht E.
  assert (r' = r) as ->.
  { eapply (forward_frames unchanged_refl unchanged_trans
              eval_vit eval_conv_layers eval_after_concat); eassumption. }
  auto.
Qed.

(** *** Encoders in use *)





Variable h : hub (A := A).

Lemma constructed_init cfg made e made' :
  __init__ h cfg made = (ok e, made') -> constructed h cfg e.
Proof.
  intro E. exists made, made'. rewrite E. f_equal. f_equal.
  apply init_inv in E.
  destruct E as (_ & _ & _ & _ & Hcc & _ & Hl & _ & Ht & Hp & Hs).
  destruct e as [eH eW ec en el em ecl efl eal ev efe emo eli etr epa].
  cbn [conv_channels conv_layers training parameters] in *.
  unfold arch. cbn. subst ecl etr epa.
  assert (forall c b, map reset (trunk c b) = trunk c b) as ->.
  { intros c b. unfold trunk. cbn [map]. f_equal.
    induction (Z.to_nat _) as [| n IH]; cbn [repeat map];
      [reflexivity | now rewrite IH]. }
  unfold strategy_state in Hs. cbn in Hs.
  destruct Hs as [(_ & -> & _ & _ & -> & _)
                 | [(ck & _ & _ & -> & _ & _ & -> & _)
                   | (ck & _ & _ & -> & _ & _ & -> & _)]];
    reflexivity.
Qed.

Lemma constructed_to cfg dev e : constructed h cfg e -> constructed h cfg (Encoder_to dev e).
Proof. intros (made & made' & E). exists made, made'. exact E. Qed.

Lemma constructed_train cfg mode e : constructed h cfg e -> constructed h cfg (train mode e).
Proof.
  intros (made & made' & E). exists made, made'. rewrite E. do 2 f_equal.
  unfold arch, train. cbn. f_equal. destruct (model e); reflexivity.
Qed.

End Evaluation.

Section DinoShapes.
Context {A : Type} {N : Numerics A}.
Implicit Types r : runtime (A := A).
Implicit Types image message out : tensor A.

Lemma call_feature_extractor_inv (xs : list (tensor A)) r y r' :
  call_feature_extractor xs r = (ok y, r') ->
  r' = r /\ exists fe, feature_extractor (self r) = Some fe
                       /\ ViTFeatureExtractor_call fe xs = ok y.
Proof.
  unfold call_feature_extractor. intro E. step_as E Ha.
  apply attribute_ok in Ha as [Ha ->]. leaf E. eauto.
Qed.

Lemma to_cuda_inv (x : tensor A) r y r' :
  to_cuda x r = (ok y, r') -> r' = r /\ y = to cuda x.
Proof.
  unfold to_cuda. destruct (cuda_available r); intro E; inversion E; auto.
Qed.

Lemma call_model_inv (x : tensor A) r y r' :
  call_model x r = (ok y, r') ->
  r' = r /\ exists m, model (self r) = Some m
                      /\ ViTModel_forward (parameters (self r)) m x = ok y.
Proof.
  unfold call_model. intro E. step_as E Ha.
  apply attribute_ok in Ha as [Ha ->]. inversion E; subst.
  split; [reflexivity | eauto].
Qed.

Lemma call_linear_inv (x : tensor A) r y r' :
  call_linear x r = (ok y, r') -> r' = r.
Proof.
  unfold call_linear. intro E. step_as E Ha.
  apply attribute_ok in Ha as [Ha ->]. inversion E. reflexivity.
Qed.

Lemma forward_dino_output_inv image message r out r' :
  forward_dino_output image message r = (ok out, r') ->
  exists cs, fused (self r) image message out cs.
Proof.
  unfold forward_dino_output. intro E.
  step_as E Hsp. step_as E Hfe.
  apply call_feature_extractor_inv in Hfe as (-> & fe & _ & Hfe).
  destruct (preprocess_inv _ _ Hsp Hfe) as (b & hi & wi & Himg & _).
  step_as E Hcu. apply to_cuda_inv in Hcu as [-> _].
  step_as E Hmo. apply call_model_inv in Hmo as [-> _].
  step_as E Hli. apply call_linear_inv in Hli as ->.
  step_as E Hb0. step_as E Hc. step_as E Hre.
  apply reshape_side_128 in Hre as ((x' & y' & Hsem) & _ & _).
  step_as E Hex. apply expand_message_inv in Hex as [-> Hex].
  step_as E Hcat. step_as E Hac. step_as E Hfl. leaf E.
  eapply (fusion_tail r image message) in Hfl;
    [| exact Hex | exact Hsem | exact Himg | exact Hcat | exact Hac ].
  destruct Hfl as [Hf _]. eauto.
Qed.

Lemma concat_dino_attention_inv image message r concat r' :
  concat_dino_attention image message r = (ok concat, r') ->
  r' = r
  /\ exists m em sem b hi wi,
       model (self r) = Some m
       /\ shape image = [b; 3; hi; wi]
       /\ broadcast (H (self r)) (W (self r)) message = ok em
       /\ cat [em; sem; image] 1 = ok concat
       /\ (exists x y, shape sem = [x; y; 128; 128])
       /\ (num_attention_heads (config m) <> -1 ->
           shape sem = [b; num_attention_heads (config m); 128; 128]).
Proof.
  unfold concat_dino_attention. intro E.
  step_as E Hsp. step_as E Hfe.
  apply call_feature_extractor_inv in Hfe as (-> & fe & _ & Hfe).
  destruct (preprocess_inv _ _ Hsp Hfe) as (b & hi & wi & Himg & Hb & Hpx & _).
  step_as E Hcu. apply to_cuda_inv in Hcu as [-> ->].
  step_as E Hmo. apply call_model_inv in Hmo as (-> & m & Hm & Hmo).
  apply ViTModel_forward_inv in Hmo as (b' & Hpx' & _ & _ & _ & _ & Hlast).
  cbn [to shape] in Hpx'. rewrite Hpx in Hpx'. inversion Hpx'; subst b'.
  step_as E Hat.
  destruct (last_attention (attentions x1)) as [last | e] eqn:El;
    [| unfold attention_map in Hat; rewrite El in Hat; discriminate].
  destruct (Hlast _ eq_refl) as (Hls & _ & _).
  destruct (attention_map_inv _ El Hls Hat) as (Hex4 & _ & _ & Hexact).
  step_as E Hex. apply expand_message_inv in Hex as [-> Hex].
  leaf E. split; [reflexivity |].
  exists m, x3, x2, b, hi, wi.
  repeat split; auto.
  intro Hh. apply Hexact; [lia | exact Hh].
Qed.

Lemma forward_dino_attention_inv image message r out r' :
  forward_dino_attention image message r = (ok out, r') ->
  exists cs,
    fused (self r) image message out cs
    /\ forall m, model (self r) = Some m ->
                 num_attention_heads (config m) <> -1 ->
                 cs = num_attention_heads (config m).
Proof.
  unfold forward_dino_attention. intro E.
  step_as E Hco. apply concat_dino_attention_inv in Hco
    as (-> & m & em & sem & b & hi & wi & Hm & Himg & Hex & Hcat & (x' & y' & Hsem) & Hexact).
  step_as E Hac. step_as E Hfl. leaf E.
  eapply (fusion_tail r image message) in Hfl;
    [| exact Hex | exact Hsem | exact Himg | exact Hcat | exact Hac ].
  destruct Hfl as [Hf _]. exists y'. split; [exact Hf |].
  intros m' Hm' Hh. rewrite Hm in Hm'. inversion Hm'; subst m'.
  specialize (Hexact Hh). rewrite Hsem in Hexact. now inversion Hexact.
Qed.

(** Whatever the strategy, a forward call that returns has run the fusion
    block on a 128 x 128 concatenation. *)
Lemma forward_fused image message r out r' :
  forward image message r = (ok out, r') ->
  exists cs, fused (self r) image message out cs
    /\ (encoder_mode (self r) = "vit" -> t_dtype image = p_dtype (parameters (self r))).
Proof.
  unfold forward. intro E. step_as E Hmode.
  destruct (_ =? "vit")%string eqn:E1.
  { apply forward_vit_inv in E as [[cs Hf] Hd]. eauto. }
  destruct (_ =? "dino-output")%string eqn:E2.
  { apply forward_dino_output_inv in E as [cs Hf]. exists cs. split; auto.
    intro Hv. rewrite Hv in E1. discriminate. }
  destruct (_ =? "dino-attention")%string eqn:E3; [| discriminate].
  apply forward_dino_attention_inv in E as [cs [Hf _]]. exists cs. split; auto.
  intro Hv. rewrite Hv in E1. discriminate.
Qed.
End DinoShapes.

(** ** The forward contract *)

Section ForwardClaims.
Context {A : Type} {N : Numerics A}.
Implicit Types r : runtime (A := A).
Implicit Types image message out : tensor A.
Variable h : hub (A := A).

(** What being constructed says about the fields the forward passes read. *)
Lemma constructed_inv cfg e :
  constructed h cfg e ->
  let c := options.encoder_channels cfg in
  H e = options.H cfg /\ W e = options.W cfg
  /\ out_channels (final_layer e) = 3 /\ kernel_size (final_layer e) = 1
  /\ options.encoder_mode cfg = Some (encoder_mode e)
  /\ (encoder_mode e = "dino-attention" ->
      channels_in (after_concat_layer e) = 39
      /\ exists ck m, h "facebook/dino-vits8" = Some ck
                      /\ model e = Some m /\ config m = ck)
  /\ (encoder_mode e <> "dino-attention" ->
      channels_in (after_concat_layer e) = c + 3 + options.message_length cfg).
Proof.
  intros (made & made' & E) c. apply init_inv in E.
  destruct E as (Hm & _ & HH & HW & _ & _ & _ & Hf & _ & _ & Hs).
  cbn in HH, HW, Hf, Hm. rewrite Hf.
  repeat (split; [solve [auto] |]).
  unfold strategy_state in Hs. cbn in Hs. fold c in Hs.
  destruct Hs as [(Hmode & Hac & _)
                 | [(ck & Hh & Hmode & Hac & _)
                   | (ck & Hh & Hmode & Hac & _ & _ & Hmo & _)]].
  - split; [intro Hd; rewrite Hd in Hmode; discriminate |].
    intros _. apply (f_equal channels_in) in Hac. exact Hac.
  - split; [intro Hd; rewrite Hd in Hmode; discriminate |].
    intros _. apply (f_equal channels_in) in Hac. exact Hac.
  - split; [| intro Hd; contradiction].
    intros _. split; [apply (f_equal channels_in) in Hac; exact Hac |].
    destruct (model e) as [m |]; [| discriminate].
    exists ck, m. cbn in Hmo. injection Hmo as Hc1 _. auto.
Qed.

(** C4: in every strategy the semantic representation is 128 x 128
    whatever H and W are configured, so a forward call returns only when
    the configured H and W, and the image's, are 128. *)
Theorem forward_needs_side_128 r image message out r' :
  forward image message r = (ok out, r') ->
  H (self r) = 128 /\ W (self r) = 128
  /\ exists B, shape image = [B; 3; 128; 128].
Proof.
  intro E. apply forward_fused in E as (cs & Hf & _).
  destruct Hf as (HH & HW & B & L & Himg & _). eauto.
Qed.


(** C3: in strategy 'dino-attention' the tensor handed to the fusion block
    has message_length + head_count + 3 channels, head_count being the
    backbone's number of attention heads, and [forward_dino_attention]
    returns only when that sum is the 39 the block was built for. *)
Theorem dino_attention_channels cfg r image message out r' :
  constructed h cfg (self r) ->
  encoder_mode (self r) = "dino-attention" ->
  (forall ck, h "facebook/dino-vits8" = Some ck -> 0 <= num_attention_heads ck) ->
  forward_dino_attention image message r = (ok out, r') ->
  exists ck concat B L,
    h "facebook/dino-vits8" = Some ck
    /\ channels_in (after_concat_layer (self r)) = 39
    /\ concat_dino_attention image message r = (ok concat, r)
    /\ shape message = [B; L]
    /\ shape concat = [B; L + num_attention_heads ck + 3; 128; 128]
    /\ L + num_attention_heads ck + 3 = 39.
Proof.
  intros Hc Hmode Hheads E.
  apply constructed_inv in Hc.
  destruct Hc as (_ & _ & _ & _ & _ & Hda & _).
  destruct (Hda Hmode) as (H39 & ck & m & Hh & Hm & Hcfg).
  specialize (Hheads _ Hh).
  pose proof E as E'. apply forward_dino_attention_inv in E' as (cs & Hf & Hcs).
  assert (cs = num_attention_heads ck) as ->
    by (rewrite <- Hcfg; apply Hcs; [exact Hm | rewrite Hcfg; lia]).
  destruct Hf as (_ & _ & B & L & Himg & Hmsg & Hsum & _).
  unfold forward_dino_attention in E. step_as E Hco.
  pose proof Hco as Hco'.
  apply concat_dino_attention_inv in Hco'
    as (-> & m' & em & sem & b & hi & wi & Hm' & Himg' & Hex & Hcat & _ & Hexact).
  rewrite Hm in Hm'. inversion Hm'; subst m'. rewrite Hcfg in Hexact.
  assert (num_attention_heads ck <> -1) as Hne by lia.
  specialize (Hexact Hne).
  eapply cat3_inv in Hcat; [| exact Hexact].
  destruct Hcat as (ca & cc & Ha & Hc & Ht & _).
  apply broadcast_inv in Hex as (B' & L' & Hmsg' & Hem & _).
  rewrite Hmsg in Hmsg'. inversion Hmsg'; subst B' L'.
  rewrite Hem in Ha. injection Ha as Eb Eca _ _. subst b ca.
  rewrite Himg in Hc. injection Hc as Ecc. subst cc.
  exists ck, x, B, L. rewrite H39 in Hsum.
  repeat split; auto. rewrite Ht. do 2 f_equal. lia.
Qed.
End ForwardClaims.

(** ** Values: the broadcast message and the attention map *)

Section Values.
Context {A : Type} {N : Numerics A}.
Implicit Types r : runtime (A := A).

Lemma in_bounds_2 B L b l :
  0 <= b < B -> 0 <= l < L -> in_bounds [B; L] [b; l] = true.
Proof.
  intros Hb Hl. simpl.
  repeat (rewrite (proj2 (Z.leb_le _ _)) by lia).
  repeat (rewrite (proj2 (Z.ltb_lt _ _)) by lia). reflexivity.
Qed.

Lemma in_bounds_4 d0 d1 d2 d3 i0 i1 i2 i3 :
  0 <= i0 < d0 -> 0 <= i1 < d1 -> 0 <= i2 < d2 -> 0 <= i3 < d3 ->
  in_bounds [d0; d1; d2; d3] [i0; i1; i2; i3] = true.
Proof.
  intros. simpl.
  repeat (rewrite (proj2 (Z.leb_le _ _)) by lia).
  repeat (rewrite (proj2 (Z.ltb_lt _ _)) by lia). reflexivity.
Qed.

Lemma expand_grow n (rest : option (list Z)) :
  0 <= n ->
  (if (n =? -1) || (n =? 1) then option_map (cons 1) rest
   else if (1 =? 1) && (0 <=? n) then option_map (cons n) rest else None)
  = option_map (cons n) rest.
Proof.
  intro Hn.
  destruct (Z.eqb_spec n (-1)); [lia |].
  destruct (Z.eqb_spec n 1); [subst; reflexivity |].
  simpl. now rewrite (proj2 (Z.leb_le _ _)) by lia.
Qed.

Lemma broadcast_run (message : tensor A) B L h w :
  shape message = [B; L] -> 0 <= h -> 0 <= w ->
  exists e,
    broadcast h w message = ok e
    /\ shape e = [B; L; h; w]
    /\ forall b l i j,
         0 <= b < B -> 0 <= l < L ->
         data e [b; l; i; j] = data message [b; l].
Proof.
  intros Hs Hh Hw. unfold broadcast.
  rewrite unsqueeze_last. cbn [rbind].
  rewrite unsqueeze_last. cbn [rbind].
  unfold expand. cbn [shape]. rewrite Hs.
  cbn [app rev expand_shape].
  rewrite !expand_grow by assumption.
  replace ((-1 =? -1) || (-1 =? L)) with true by reflexivity.
  replace ((-1 =? -1) || (-1 =? B)) with true by reflexivity.
  cbn [option_map rev app].
  eexists. split; [reflexivity |]. split; [reflexivity |].
  intros b l i j Hb Hl. cbn [data List.length app rev expand_index firstn skipn].
  replace (1 =? 1) with true by reflexivity. cbn [rev app firstn skipn].
  destruct (Z.eqb_spec L 1) as [-> | _]; destruct (Z.eqb_spec B 1) as [-> | _];
    repeat f_equal; lia.
Qed.

(** C8: the broadcast message has shape (B, message_length, H, W) and at
    every spatial location of every batch item holds the entries of the
    original message vector. *)
Theorem message_is_constant_over_space r (message : tensor A) B L :
  shape message = [B; L] ->
  0 <= H (self r) -> 0 <= W (self r) ->
  exists e,
    expand_message message r = (ok e, r)
    /\ shape e = [B; L; H (self r); W (self r)]
    /\ forall b l i j,
         0 <= b < B -> 0 <= l < L ->
         0 <= i < H (self r) -> 0 <= j < W (self r) ->
         get e [b; l; i; j] = get message [b; l]
         /\ get e [b; l; i; j] = Some (data message [b; l]).
Proof.
  intros Hs Hh Hw.
  destruct (broadcast_run message Hs Hh Hw) as (e & He & Hse & Hd).
  exists e. split; [| split; [exact Hse |]].
  - unfold expand_message, bind, gets, lift. now rewrite He.
  - intros b l i j Hb Hl Hi Hj. unfold get. rewrite Hse, Hs.
    rewrite in_bounds_4, in_bounds_2 by assumption.
    rewrite Hd by assumption. auto.
Qed.

Lemma unravel_3 B Hd K b hd k :
  0 <= b < B -> 0 <= hd < Hd -> 0 <= k < K ->
  unravel [B; Hd; K] (b * (Hd * K) + hd * K + k) = [b; hd; k].
Proof.
  intros Hb Hh Hk. unfold unravel, numel. cbn [fold_right].
  rewrite !Z.mul_1_r, Z.div_1_r.
  assert ((b * (Hd * K) + hd * K + k) / (Hd * K) = b) as ->.
  { symmetry. apply Z.div_unique with (r := hd * K + k); nia. }
  assert ((b * (Hd * K) + hd * K + k) / K = b * Hd + hd) as ->.
  { symmetry. apply Z.div_unique with (r := k); nia. }
  rewrite (Z.mod_small b B) by lia.
  assert ((b * Hd + hd) mod Hd = hd) as ->
    by (symmetry; apply Z.mod_unique with (q := b); nia).
  assert ((b * (Hd * K) + hd * K + k) mod K = k) as ->
    by (symmetry; apply Z.mod_unique with (q := b * Hd + hd); nia).
  reflexivity.
Qed.

Lemma nearest_28_of_128 i : 0 <= i < 128 -> 0 <= i * 28 / 128 <= 27.
Proof.
  intro Hi. split.
  - apply Z.div_pos; lia.
  - assert (i * 28 / 128 < 28); [| lia].
    apply Z.div_lt_upper_bound; lia.
Qed.

(** C7: the semantic representation of strategy 'dino-attention' is read
    off the backbone's last attention map: for every head, the class
    token's row without its first entry (the class token attending to
    itself), laid out as a 28 x 28 grid and enlarged to 128 x 128 by
    nearest-neighbour interpolation.  It has one channel per attention
    head of the backbone, whatever the batch size. *)
Theorem attention_map_is_class_token_row pl m (px : tensor A) outputs sem B rest :
  ViTModel_forward pl m px = ok outputs ->
  shape px = B :: rest -> 0 <= B ->
  0 <= num_attention_heads (config m) ->
  attention_map (attentions outputs) = ok sem ->
  exists last,
    last_attention (attentions outputs) = ok last
    /\ shape last = [B; num_attention_heads (config m);
                     seq_len (config m); seq_len (config m)]
    /\ shape sem = [B; num_attention_heads (config m); 128; 128]
    /\ forall b hd i j,
         0 <= b < B -> 0 <= hd < num_attention_heads (config m) ->
         0 <= i < 128 -> 0 <= j < 128 ->
         seq_len (config m) = 28 * 28 + 1
         /\ get sem [b; hd; i; j]
            = get last [b; hd; 0; 1 + 28 * (i * 28 / 128) + j * 28 / 128]
         /\ get sem [b; hd; i; j]
            = Some (data last [b; hd; 0; 1 + 28 * (i * 28 / 128) + j * 28 / 128]).
Proof.
  intros Hmo Hpx HB Hh Hat.
  apply ViTModel_forward_inv in Hmo as (B' & Hpx' & _ & _ & _ & _ & Hlast).
  rewrite Hpx in Hpx'. injection Hpx' as <- _.
  destruct (last_attention (attentions outputs)) as [last | e] eqn:El;
    [| unfold attention_map in Hat; rewrite El in Hat; discriminate].
  destruct (Hlast _ eq_refl) as (Hls & _ & _).
  destruct (attention_map_inv _ El Hls Hat) as (_ & _ & _ & Hexact).
  destruct Hexact as (Hss & HT & Hn & _ & _ & Hda); [lia | lia |].
  exists last. do 3 (split; [solve [auto] |]).
  intros b hd i j Hb Hhd Hi Hj.
  set (T := seq_len (config m)) in *.
  assert (T = 785) as HT785
    by (unfold slice_start, wrap in Hn; simpl in Hn; nia).
  pose proof (nearest_28_of_128 Hi) as Hp.
  pose proof (nearest_28_of_128 Hj) as Hq.
  assert (data sem [b; hd; i; j]
          = data last [b; hd; 0; 1 + 28 * (i * 28 / 128) + j * 28 / 128]) as Hv.
  { rewrite Hda. rewrite !Z.min_l by lia.
    replace (T - slice_start 1 T) with 784
      by (rewrite HT785; reflexivity).
    replace (ravel [B; num_attention_heads (config m); 28; 28]
               [b; hd; i * 28 / 128; j * 28 / 128])
      with (b * (num_attention_heads (config m) * 784) + hd * 784
            + (28 * (i * 28 / 128) + j * 28 / 128))
      by (unfold ravel, numel; cbn [fold_right]; lia).
    rewrite unravel_3 by lia.
    cbn [getitem_index]. unfold wrap, slice_start. rewrite HT785.
    replace (Z.min 785 (Z.max 0 (wrap 1 785))) with 1 by reflexivity.
    replace (if 0 <? 0 then 0 + 785 else 0) with 0 by reflexivity.
    do 5 f_equal. lia. }
  split; [lia |].
  unfold get. rewrite Hss, Hls, !in_bounds_4 by lia.
  rewrite Hv. split; reflexivity.
Qed.
End Values.

(** ** The trunk's weights and strategy 'vit' *)

Section TrunkIndependence.
Context {A : Type} {N : Numerics A}.
Implicit Types r : runtime (A := A).

















End TrunkIndependence.

(** * The claims on concrete runs *)

Lemma the_hub_heads ck :
  the_hub "facebook/dino-vits8" = Some ck -> 0 <= num_attention_heads ck.
Proof. intro E. vm_compute in E. injection E as <-. vm_compute. discriminate. Qed.



(** In the pretrained strategies the backbone input is rebuilt as float32,
    so a half-precision image gives a float32 output. *)
Example half_precision_image :
  exists r out r',
    fresh "dino-attention" 128 cuda = ok r
    /\ forward (Tensor [2; 3; 128; 128] float16 cuda (fun _ => 0))
               (sample_message 2 cuda) r = (ok out, r')
    /\ t_dtype out = float32.
Proof.
  do 3 eexists. split; [vm_compute; reflexivity |].
  split; vm_compute; reflexivity.
Qed.



Lemma dino_attention_channels_witness :
  exists r out r',
    fresh "dino-attention" 128 cuda = ok r
    /\ forward_dino_attention (sample_image 2 128 cuda) (sample_message 2 cuda) r
       = (ok out, r')
    /\ exists ck concat B L,
         the_hub "facebook/dino-vits8" = Some ck
         /\ channels_in (after_concat_layer (self r)) = 39
         /\ concat_dino_attention (sample_image 2 128 cuda) (sample_message 2 cuda) r
            = (ok concat, r)
         /\ shape (sample_message 2 cuda) = [B; L]
         /\ shape concat = [B; L + num_attention_heads ck + 3; 128; 128]
         /\ L + num_attention_heads ck + 3 = 39.
Proof.
  do 3 eexists. split; [vm_compute; reflexivity |].
  split; [vm_compute; reflexivity |].
  eapply (dino_attention_channels (h := the_hub)
            (cfg := sample_config (Some "dino-attention") 128)
            _ (sample_image 2 128 cuda) (sample_message 2 cuda)).
  - exists []. eexists. vm_compute. reflexivity.
  - reflexivity.
  - exact the_hub_heads.
  - vm_compute. reflexivity.
Defined.

(** With 8 message entries the sum is 8 + 6 + 3 = 17 and the fusion block,
    built for 39 channels, refuses the concatenation. *)
Example eight_bit_message_is_refused :
  exists r,
    fresh "dino-attention" 128 cuda = ok r
    /\ fst (forward_dino_attention (sample_image 2 128 cuda)
              (Tensor [2; 8] float32 cuda (fun _ => 0)) r)
       = raise (RuntimeError "expected input to have channels_in channels").
Proof.
  eexists. split; [vm_compute; reflexivity |]. vm_compute. reflexivity.
Qed.

Lemma forward_needs_side_128_witness :
  exists r out r',
    fresh "dino-output" 128 cuda = ok r
    /\ forward (sample_image 2 128 cuda) (sample_message 2 cuda) r = (ok out, r')
    /\ H (self r) = 128 /\ W (self r) = 128
    /\ exists B, shape (sample_image 2 128 cuda) = [B; 3; 128; 128].
Proof.
  do 3 eexists. split; [vm_compute; reflexivity |].
  split; [vm_compute; reflexivity |].
  eapply (forward_needs_side_128 _ (sample_image 2 128 cuda) (sample_message 2 cuda)).
  vm_compute. reflexivity.
Defined.

(** C5, as stated, fails: a newly constructed encoder is in training mode,
    where one forward call advances the batch counter of the fusion block
    and the random generator that dropout draws from, and a second call on
    the same image and message returns a different output. *)
Lemma training_forward_changes_state :
  match fresh (N := visible_draws) "vit" 128 cpu with
  | ok r =>
      match forward (sample_image 2 128 cpu) (sample_message 2 cpu) r with
      | (ok out1, r1) =>
          match forward (sample_image 2 128 cpu) (sample_message 2 cpu) r1 with
          | (ok out2, r2) =>
              training (self r) = true
              /\ generator r = 0 /\ generator r1 = 1 /\ generator r2 = 2
              /\ num_batches_tracked (after_concat_layer (self r)) = 0
              /\ num_batches_tracked (after_concat_layer (self r1)) = 1
              /\ get out1 [0; 0; 0; 0] = Some 1
              /\ get out2 [0; 0; 0; 0] = Some 2
          | _ => False
          end
      | _ => False
      end
  | raise _ => False
  end.
Proof. vm_compute. repeat split; reflexivity. Qed.

Lemma eval_forward_stateless_witness :
  exists r res r',
    rmap in_eval (fresh "vit" 128 cpu) = ok r
    /\ training (self r) = false
    /\ forward (sample_image 2 128 cpu) (sample_message 2 cpu) r = (res, r')
    /\ is_ok res = true
    /\ r' = r
    /\ forward (sample_image 2 128 cpu) (sample_message 2 cpu) r' = (res, r').
Proof.
  do 3 eexists. split; [vm_compute; reflexivity |].
  split; [reflexivity |].
  split; [vm_compute; reflexivity |].
  split; [reflexivity |].
  eapply (eval_forward_stateless _ (sample_image 2 128 cpu) (sample_message 2 cpu)).
  - reflexivity.
  - vm_compute. reflexivity.
Defined.

Lemma vit_hyperparameters_witness :
  exists e made',
    options.encoder_mode (sample_config (Some "vit") 128) = Some "vit"
    /\ __init__ the_hub (sample_config (Some "vit") 128) [] = (ok e, made')
    /\ exists v,
         vit e = Some v
         /\ patch_size v = 32
         /\ num_classes v = 128 * 128 * conv_channels e
         /\ depth v = options.decoder_blocks (sample_config (Some "vit") 128) / 2
         /\ image_size v = (options.H (sample_config (Some "vit") 128),
                            options.W (sample_config (Some "vit") 128))
         /\ conv_channels e = options.encoder_channels (sample_config (Some "vit") 128).
Proof.
  do 2 eexists. split; [reflexivity |].
  split; [vm_compute; reflexivity |].
  eapply (vit_hyperparameters the_hub (sample_config (Some "vit") 128) []).
  - reflexivity.
  - vm_compute. reflexivity.
Defined.


Lemma attention_map_is_class_token_row_witness :
  exists outputs sem,
    ViTModel_forward {| p_device := cuda; p_dtype := float32 |}
      dino_with_attentions (pixel_values 2) = ok outputs
    /\ attention_map (attentions outputs) = ok sem
    /\ exists last,
         last_attention (attentions outputs) = ok last
         /\ shape last = [2; 6; 785; 785]
         /\ shape sem = [2; 6; 128; 128]
         /\ forall b hd i j,
              0 <= b < 2 -> 0 <= hd < 6 -> 0 <= i < 128 -> 0 <= j < 128 ->
              seq_len dino_vits8 = 28 * 28 + 1
              /\ get sem [b; hd; i; j]
                 = get last [b; hd; 0; 1 + 28 * (i * 28 / 128) + j * 28 / 128]
              /\ get sem [b; hd; i; j]
                 = Some (data last [b; hd; 0; 1 + 28 * (i * 28 / 128) + j * 28 / 128]).
Proof.
  do 2 eexists. split; [vm_compute; reflexivity |].
  split; [vm_compute; reflexivity |].
  eapply (attention_map_is_class_token_row
            {| p_device := cuda; p_dtype := float32 |}
            dino_with_attentions (pixel_values 2) (B := 2)).
  - vm_compute. reflexivity.
  - reflexivity.
  - vm_compute. discriminate.
  - vm_compute. discriminate.
  - vm_compute. reflexivity.
Defined.

Lemma message_is_constant_over_space_witness :
  exists r,
    fresh "vit" 128 cpu = ok r
    /\ shape (sample_message 2 cpu) = [2; 30]
    /\ 0 <= H (self r) /\ 0 <= W (self r)
    /\ exists e,
         expand_message (sample_message 2 cpu) r = (ok e, r)
         /\ shape e = [2; 30; H (self r); W (self r)]
         /\ forall b l i j,
              0 <= b < 2 -> 0 <= l < 30 ->
              0 <= i < H (self r) -> 0 <= j < W (self r) ->
              get e [b; l; i; j] = get (sample_message 2 cpu) [b; l]
              /\ get e [b; l; i; j] = Some (data (sample_message 2 cpu) [b; l]).
Proof.
  eexists. split; [vm_compute; reflexivity |].
  split; [reflexivity |].
  split; [vm_compute; discriminate |]. split; [vm_compute; discriminate |].
  eapply (message_is_constant_over_space _ (sample_message 2 cpu)).
  - reflexivity.
  - vm_compute. discriminate.
  - vm_compute. discriminate.
Defined.


(** * Further properties *)

(** ** Construction *)

Section MoreConstruction.
Context {A : Type} {N : Numerics A}.
Variable h : hub (A := A).

(** X1: a construction that returns has allocated the trunk, the final
    projection and then only what its own strategy needs: 'vit' loads no
    pretrained checkpoint, the pretrained strategies build no [ViT], and
    'dino-attention' builds no linear projection. *)
Theorem allocations_by_strategy cfg made e made' :
  __init__ h cfg made = (ok e, made') ->
  made' = (made
           ++ trunk_allocs (options.encoder_channels cfg) (options.encoder_blocks cfg)
           ++ strategy_allocs cfg (encoder_mode e))%list.
Proof.
  intro E. unfold __init__ in E.
  destruct (options.encoder_mode cfg) as [mode |] eqn:Em; [| discriminate].
  step E. pose proof (new_ConvBNRelu_inv _ _ _ Hrun) as [_ Hc].
  rewrite new_ConvBNRelu_run in Hrun by lia. inversion Hrun; subst; clear Hrun.
  step E. rewrite repeat_blocks in Hrun by assumption.
  inversion Hrun; subst; clear Hrun.
  step E. rewrite new_Conv2d_run in Hrun by assumption.
  inversion Hrun; subst; clear Hrun.
  unfold trunk_allocs, strategy_allocs.
  destruct (mode =? "vit")%string eqn:E1.
  { apply String.eqb_eq in E1. subst mode.
    step E. pose proof (new_ConvBNRelu_inv _ _ _ Hrun) as [Hi _].
    rewrite new_ConvBNRelu_run in Hrun by assumption.
    inversion Hrun; subst; clear Hrun.
    step E. unfold new_ViT in Hrun.
    destruct (negb _) in Hrun; [discriminate |].
    step Hrun. step Hrun. subst.
    unfold allocate in Hrun0.
    destruct (existsb _ _) in Hrun0; [discriminate |].
    inversion Hrun0; subst; clear Hrun0.
    step E. cbn [encoder_mode]. cbn [String.eqb Ascii.eqb Bool.eqb].
    repeat (progress (rewrite <- ?app_assoc; cbn [app])). reflexivity. }
  destruct (mode =? "dino-output")%string eqn:E2.
  { apply String.eqb_eq in E2. subst mode.
    step E. pose proof (new_ConvBNRelu_inv _ _ _ Hrun) as [Hi _].
    rewrite new_ConvBNRelu_run in Hrun by assumption.
    inversion Hrun; subst; clear Hrun.
    step E. unfold from_pretrained in Hrun.
    destruct (h "facebook/dino-vits8") as [ck |] eqn:Eh; [| discriminate].
    inversion Hrun; subst; clear Hrun.
    step E. unfold from_pretrained in Hrun. rewrite Eh in Hrun.
    inversion Hrun; subst; clear Hrun.
    step E. unfold new_Linear in Hrun. step Hrun. step Hrun. subst.
    unfold allocate in Hrun0.
    destruct (existsb _ _) in Hrun0; [discriminate |].
    inversion Hrun0; subst; clear Hrun0.
    step E. cbn [encoder_mode]. cbn [String.eqb Ascii.eqb Bool.eqb].
    repeat (progress (rewrite <- ?app_assoc; cbn [app])). reflexivity. }
  destruct (mode =? "dino-attention")%string eqn:E3; [| discriminate].
  apply String.eqb_eq in E3. subst mode.
  step E. rewrite new_ConvBNRelu_run in Hrun by lia.
  inversion Hrun; subst; clear Hrun.
  step E. unfold from_pretrained in Hrun.
  destruct (h "facebook/dino-vits8") as [ck |] eqn:Eh; [| discriminate].
  inversion Hrun; subst; clear Hrun.
  step E. unfold from_pretrained in Hrun. rewrite Eh in Hrun.
  inversion Hrun; subst; clear Hrun.
  step E. cbn [encoder_mode]. cbn [String.eqb Ascii.eqb Bool.eqb].
  repeat (progress (rewrite <- ?app_assoc; cbn [app])). reflexivity.
Qed.


(** X3: strategy 'vit' never looks at the hub: with any two hubs
    construction returns the same encoder or raises the same exception,
    with the same allocations. *)
Theorem vit_needs_no_hub (h1 h2 : hub (A := A)) cfg made :
  options.encoder_mode cfg = Some "vit" ->
  __init__ h1 cfg made = __init__ h2 cfg made.
Proof.
  intro Em. unfold __init__. rewrite Em. reflexivity.
Qed.
End MoreConstruction.

(** ** What the forward passes demand of their inputs *)

Section ForwardDemands.
Context {A : Type} {N : Numerics A}.
Implicit Types r : runtime (A := A).
Implicit Types image message out : tensor A.

Lemma reshape_channel (t t' : tensor A) x y p q :
  y <> -1 -> p <> -1 -> q <> -1 ->
  reshape t [x; y; p; q] = ok t' ->
  exists x', shape t' = [x'; y; p; q].
Proof.
  intros Hy Hp Hq. unfold reshape.
  destruct (infer_shape _ _) as [s |] eqn:E; [| discriminate].
  intro R. inversion R; subst t'; clear R. cbn [shape].
  apply Z.eqb_neq in Hy, Hp, Hq.
  unfold infer_shape in E. cbn [filter map] in E. rewrite Hy, Hp, Hq in E.
  cbn [negb] in E.
  destruct (x =? -1); cbn [negb existsb] in E;
    repeat match type of E with
           | (if ?g then _ else _) = _ => destruct g; try discriminate
           end;
    inversion E; eauto.
Qed.

Lemma to_cuda_needs (x : tensor A) r y r' :
  to_cuda x r = (ok y, r') -> cuda_available r = true.
Proof.
  unfold to_cuda. destruct (cuda_available r); intro E; [reflexivity | discriminate].
Qed.

Lemma call_linear_needs (x : tensor A) r y r' d0 d1 :
  call_linear x r = (ok y, r') ->
  shape x = [d0; d1] ->
  exists lin, linear (self r) = Some lin /\ in_features lin = d1.
Proof.
  unfold call_linear. intros E Hs. step_as E Ha.
  apply attribute_ok in Ha as [Ha ->]. inversion E as [[E' Er]]. clear E.
  unfold Linear_forward in E'. rewrite Hs in E'. cbn [rev app] in E'.
  destruct (d1 =? in_features x0) eqn:Ed; [| discriminate].
  apply Z.eqb_eq in Ed. subst r'. exists x0. auto.
Qed.

Lemma ViTModel_pooler_shape pl m (px : tensor A) outputs b rest :
  ViTModel_forward pl m px = ok outputs ->
  shape px = b :: rest ->
  shape (pooler_output outputs) = [b; hidden_size (config m)].
Proof.
  unfold ViTModel_forward. intros E Hs.
  destruct (shape px) as [| b' [| c [| hh [| ww [| ? ?]]]]]; try discriminate.
  injection Hs as -> _.
  repeat match type of E with
         | context [if ?g then _ else _] => destruct g; try discriminate
         end;
    destruct (check_input pl px); try discriminate;
    cbn [rbind] in E; inversion E; reflexivity.
Qed.

Lemma last_attention_needs pl m (px last : tensor A) outputs :
  ViTModel_forward pl m px = ok outputs ->
  last_attention (attentions outputs) = ok last ->
  output_attentions m = true /\ 1 <= num_hidden_layers (config m).
Proof.
  unfold ViTModel_forward. intros E Hl.
  destruct (shape px) as [| b' [| c [| hh [| ww [| ? ?]]]]]; try discriminate.
  repeat match type of E with
         | context [if negb ?g then _ else _] => destruct g; cbn [negb] in E;
                                                  try discriminate
         end.
  destruct (check_input pl px); [| discriminate].
  cbn [rbind] in E. inversion E; subst outputs; clear E.
  cbn [attentions] in Hl. unfold last_attention in Hl.
  destruct (output_attentions m); [| discriminate].
  split; [reflexivity |].
  destruct (Z.to_nat (num_hidden_layers (config m))) eqn:En; [discriminate | lia].
Qed.

(** The first four steps of both pretrained paths. *)
Lemma backbone_inv image r pieces px r1 px' r2 outputs r3 :
  split (to cpu image) 1 = ok pieces ->
  call_feature_extractor (map (@squeeze0 A) pieces) r = (ok px, r1) ->
  to_cuda px r1 = (ok px', r2) ->
  call_model px' r2 = (ok outputs, r3) ->
  r3 = r
  /\ cuda_available r = true
  /\ parameters (self r) = {| p_device := cuda; p_dtype := float32 |}
  /\ exists b hi wi m,
       shape image = [b; 3; hi; wi] /\ 0 < b
       /\ model (self r) = Some m
       /\ ViTModel_forward (parameters (self r)) m px' = ok outputs
       /\ shape px' = [b; 3; ck_image_size (config m); ck_image_size (config m)].
Proof.
  intros Hsp Hfe Hcu Hmo.
  apply call_feature_extractor_inv in Hfe as (-> & fe & _ & Hfe).
  destruct (preprocess_inv _ _ Hsp Hfe) as (b & hi & wi & Himg & Hb & Hpx & Hpt & Hpd).
  pose proof (to_cuda_needs _ _ Hcu) as Hav.
  apply to_cuda_inv in Hcu as [-> ->].
  apply call_model_inv in Hmo as (-> & m & Hm & Hmo).
  pose proof Hmo as Hmo'.
  apply ViTModel_forward_inv in Hmo' as (b' & Hpx' & Hd & Ht & _).
  cbn [to shape t_device t_dtype] in Hpx', Hd, Ht.
  rewrite Hpx in Hpx'. injection Hpx' as <- Es. rewrite Hpt in Ht.
  repeat split; auto.
  - destruct (parameters (self r)) as [pd pt]. cbn in Hd, Ht. congruence.
  - exists b, hi, wi, m. cbn [to shape]. rewrite Hpx, <- Es. auto.
Qed.

Lemma forward_vit_needs image message r out r' :
  forward_vit image message r = (ok out, r') ->
  conv_channels (self r) <> -1 ->
  fused (self r) image message out (conv_channels (self r)).
Proof.
  unfold forward_vit. intros E Hcc.
  step_as E Hvit. apply call_vit_inv in Hvit
    as (Hself & _ & b & hi & wi & Himg & _ & _ & _ & _ & Hdt).
  step_as E Hb0. step_as E Hc. step_as E Hre.
  rewrite Hself in Hre.
  apply reshape_channel in Hre as (x' & Hsem); [| assumption | lia | lia].
  step_as E Hex. apply expand_message_inv in Hex as [-> Hex].
  step_as E Hcl. apply call_conv_layers_inv in Hcl as [ls ->].
  step_as E Hcat. step_as E Hac. step_as E Hfl. leaf E.
  eapply (fusion_tail (on_self (with_conv_layers ls) s) image message) in Hfl;
    [| exact Hex | exact Hsem | exact Himg | exact Hcat | exact Hac ].
  destruct Hfl as [Hf _].
  unfold fused in *. cbn in Hf. rewrite Hself in Hf. exact Hf.
Qed.

Lemma forward_dino_output_needs image message r out r' :
  forward_dino_output image message r = (ok out, r') ->
  cuda_available r = true
  /\ parameters (self r) = {| p_device := cuda; p_dtype := float32 |}
  /\ (exists b hi wi, shape image = [b; 3; hi; wi] /\ 0 < b)
  /\ (exists m lin, model (self r) = Some m /\ linear (self r) = Some lin
                    /\ in_features lin = hidden_size (config m))
  /\ (conv_channels (self r) <> -1 ->
      fused (self r) image message out (conv_channels (self r))).
Proof.
  unfold forward_dino_output. intro E.
  step_as E Hsp. step_as E Hfe. step_as E Hcu. step_as E Hmo.
  destruct (backbone_inv _ _ Hsp Hfe Hcu Hmo)
    as (-> & Hav & Hpl & b & hi & wi & m & Himg & Hb & Hm & Hrun & Hpx).
  pose proof (ViTModel_pooler_shape _ _ _ Hrun Hpx) as Hpool.
  step_as E Hli.
  destruct (call_linear_needs _ _ Hli Hpool) as (lin & Hlin & Hin).
  apply call_linear_inv in Hli as ->.
  step_as E Hb0. step_as E Hc. step_as E Hre.
  step_as E Hex. apply expand_message_inv in Hex as [-> Hex].
  step_as E Hcat. step_as E Hac. step_as E Hfl. leaf E.
  split; [exact Hav |]. split; [exact Hpl |]. split; [eauto |].
  split; [eauto 10 |].
  intro Hcc.
  apply reshape_channel in Hre as (x' & Hsem); [| assumption | lia | lia].
  eapply (fusion_tail r image message) in Hfl;
    [| exact Hex | exact Hsem | exact Himg | exact Hcat | exact Hac ].
  apply Hfl.
Qed.

Lemma forward_dino_attention_needs image message r out r' :
  forward_dino_attention image message r = (ok out, r') ->
  cuda_available r = true
  /\ parameters (self r) = {| p_device := cuda; p_dtype := float32 |}
  /\ (exists b hi wi, shape image = [b; 3; hi; wi] /\ 0 < b)
  /\ exists m, model (self r) = Some m
               /\ output_attentions m = true
               /\ 1 <= num_hidden_layers (config m)
               /\ (0 < num_attention_heads (config m) -> seq_len (config m) = 785).
Proof.
  unfold forward_dino_attention, concat_dino_attention. intro E.
  step_as E Hco.
  step_as Hco Hsp. step_as Hco Hfe. step_as Hco Hcu. step_as Hco Hmo.
  destruct (backbone_inv _ _ Hsp Hfe Hcu Hmo)
    as (-> & Hav & Hpl & b & hi & wi & m & Himg & Hb & Hm & Hrun & Hpx).
  step_as Hco Hat.
  destruct (last_attention (attentions x3)) as [last | e] eqn:El;
    [| unfold attention_map in Hat; rewrite El in Hat; discriminate].
  destruct (last_attention_needs _ _ _ Hrun El) as [Hoa Hnl].
  pose proof Hrun as Hrun'.
  apply ViTModel_forward_inv in Hrun' as (b' & Hpx' & _ & _ & _ & _ & Hlast).
  rewrite Hpx in Hpx'. injection Hpx' as <-.
  destruct (Hlast _ El) as (Hls & _ & _).
  destruct (attention_map_inv _ El Hls Hat) as (_ & _ & _ & Hexact).
  split; [exact Hav |]. split; [exact Hpl |]. split; [eauto |].
  exists m. do 3 (split; [assumption |]).
  intro Hh. destruct Hexact as (_ & HT & Hn & _); [lia | lia |].
  unfold slice_start, wrap in Hn. simpl in Hn. nia.
Qed.
End ForwardDemands.

Section ConstructedEncoders.
Context {A : Type} {N : Numerics A}.
Implicit Types r : runtime (A := A).
Implicit Types image message out : tensor A.
Variable h : hub (A := A).

Lemma widths_reset (ls : list ConvBNRelu) : map widths (map reset ls) = map widths ls.
Proof. induction ls as [| l ls IH]; cbn; [reflexivity | now rewrite IH]. Qed.

(** A constructed encoder, field by field. *)
Lemma constructed_strategy cfg e :
  constructed h cfg e ->
  let c := options.encoder_channels cfg in
  let fusion := (c + 3 + options.message_length cfg, c) in
  conv_channels e = c /\ 0 <= c
  /\ H e = options.H cfg /\ W e = options.W cfg
  /\ final_layer e = projection c
  /\ map widths (conv_layers e) = map widths (trunk c (options.encoder_blocks cfg))
  /\ ((encoder_mode e = "vit"
       /\ widths (after_concat_layer e) = fusion
       /\ vit e = Some (vit_of cfg))
      \/ (exists ck m,
            h "facebook/dino-vits8" = Some ck
            /\ encoder_mode e = "dino-output"
            /\ widths (after_concat_layer e) = fusion
            /\ feature_extractor e = Some {| size := ck_image_size ck |}
            /\ model e = Some m /\ config m = ck /\ output_attentions m = false
            /\ linear e = Some {| in_features := 384; out_features := 128 * 128 * c;
                                  linear_weights := init (Alloc "Linear" [384; 128 * 128 * c]) |})
      \/ (exists ck m,
            h "facebook/dino-vits8" = Some ck
            /\ encoder_mode e = "dino-attention"
            /\ widths (after_concat_layer e) = (39, c)
            /\ feature_extractor e = Some {| size := ck_image_size ck |}
            /\ model e = Some m /\ config m = ck /\ output_attentions m = true)).
Proof.
  intros (made & made' & E) c fusion. apply init_inv in E.
  destruct E as (_ & Hc & HH & HW & Hcc & _ & Hl & Hf & _ & _ & Hs).
  cbn in HH, HW, Hf, Hcc, Hl. fold c in Hc, Hcc, Hf, Hl.
  do 5 (split; [assumption |]).
  split; [rewrite <- Hl; symmetry; apply widths_reset |].
  unfold strategy_state in Hs. cbn in Hs. fold c in Hs.
  destruct Hs as [(Hmode & Hac & Hv & _)
                 | [(ck & Hh & Hmode & Hac & _ & Hfe & Hmo & Hli)
                   | (ck & Hh & Hmode & Hac & _ & Hfe & Hmo & _)]].
  - left. repeat split; auto. apply (f_equal widths) in Hac. exact Hac.
  - right; left. destruct (model e) as [m |]; [| discriminate].
    cbn in Hmo. injection Hmo as Hc1 Hc2.
    exists ck, m. repeat split; auto. apply (f_equal widths) in Hac. exact Hac.
  - right; right. destruct (model e) as [m |]; [| discriminate].
    cbn in Hmo. injection Hmo as Hc1 Hc2.
    exists ck, m. repeat split; auto. apply (f_equal widths) in Hac. exact Hac.
Qed.

(** X4: on a constructed encoder [forward] always takes one of the three
    paths, the one its mode names, and the modules that path reads exist:
    the fallback [ValueError] of the dispatch is never reached. *)
Theorem forward_dispatch cfg r image message :
  constructed h cfg (self r) ->
  (encoder_mode (self r) = "vit"
   /\ vit (self r) <> None
   /\ forward image message r = forward_vit image message r)
  \/ (encoder_mode (self r) = "dino-output"
      /\ feature_extractor (self r) <> None /\ model (self r) <> None
      /\ linear (self r) <> None
      /\ forward image message r = forward_dino_output image message r)
  \/ (encoder_mode (self r) = "dino-attention"
      /\ feature_extractor (self r) <> None /\ model (self r) <> None
      /\ forward image message r = forward_dino_attention image message r).
Proof.
  intro Hc. apply constructed_strategy in Hc.
  destruct Hc as (_ & _ & _ & _ & _ & _ & Hs).
  unfold forward, bind, gets.
  destruct Hs as [(Hm & _ & Hv)
                 | [(ck & m & _ & Hm & _ & Hfe & Hmo & _ & _ & Hli)
                   | (ck & m & _ & Hm & _ & Hfe & Hmo & _)]];
    rewrite Hm; cbn [String.eqb Ascii.eqb Bool.eqb];
    [left | right; left | right; right];
    repeat split; congruence.
Qed.

(** X5: in strategies 'vit' and 'dino-output' the fusion block is built for
    conv_channels + 3 + message_length channels, so [forward] returns only
    for a message of shape (B, message_length), B being the batch size of
    the image. *)
Theorem message_length_is_checked cfg r image message out r' :
  constructed h cfg (self r) ->
  encoder_mode (self r) = "vit" \/ encoder_mode (self r) = "dino-output" ->
  forward image message r = (ok out, r') ->
  exists B,
    shape image = [B; 3; 128; 128]
    /\ shape message = [B; options.message_length cfg].
Proof.
  intros Hc Hmode E. apply constructed_strategy in Hc.
  destruct Hc as (Hcc & Hc0 & _ & _ & _ & _ & Hs).
  assert (conv_channels (self r) <> -1) as Hne by lia.
  assert (widths (after_concat_layer (self r))
          = (options.encoder_channels cfg + 3 + options.message_length cfg,
             options.encoder_channels cfg)) as Hw.
  { destruct Hs as [(_ & Hw & _) | [(ck & m & _ & _ & Hw & _) | (ck & m & _ & Hm & _)]];
      try exact Hw.
    destruct Hmode as [Hv | Hv]; rewrite Hv in Hm; discriminate. }
  injection Hw as Hin _.
  assert (fused (self r) image message out (conv_channels (self r))) as Hf.
  { unfold forward in E. step_as E Hg.
    destruct Hmode as [Hv | Hv]; rewrite Hv in E;
      cbn [String.eqb Ascii.eqb Bool.eqb] in E.
    - eapply forward_vit_needs; eassumption.
    - apply forward_dino_output_needs in E. now apply E. }
  destruct Hf as (_ & _ & B & L & Himg & Hmsg & Hsum & _).
  exists B. split; [exact Himg |]. rewrite Hmsg. do 2 f_equal. lia.
Qed.

(** X6: the pretrained paths move the backbone input to 'cuda' and the
    preprocessor answers in float32: [forward] returns in these strategies
    only on a machine with CUDA, with the encoder's parameters on 'cuda' in
    float32, and the image and the message on 'cuda'; the output is then a
    float32 tensor on 'cuda'. *)
Theorem pretrained_paths_need_cuda r image message out r' :
  encoder_mode (self r) = "dino-output" \/ encoder_mode (self r) = "dino-attention" ->
  forward image message r = (ok out, r') ->
  cuda_available r = true
  /\ parameters (self r) = {| p_device := cuda; p_dtype := float32 |}
  /\ t_device image = cuda /\ t_device message = cuda
  /\ t_device out = cuda /\ t_dtype out = float32.
Proof.
  intros Hmode E.
  pose proof (forward_fused _ _ _ E) as (cs & Hf & _).
  destruct Hf as (_ & _ & B & L & Himg & _ & _ & _ & Hdo & Hdm & Hdi & Hto).
  assert (cuda_available r = true
          /\ parameters (self r) = {| p_device := cuda; p_dtype := float32 |})
    as (Hav & Hpl).
  { unfold forward in E. step_as E Hg.
    destruct Hmode as [Hv | Hv]; rewrite Hv in E;
      cbn [String.eqb Ascii.eqb Bool.eqb] in E.
    - apply forward_dino_output_needs in E.
      destruct E as (? & ? & _). auto.
    - apply forward_dino_attention_needs in E.
      destruct E as (? & ? & _). auto. }
  rewrite Hpl in Hdi, Hto. cbn in Hdi, Hto.
  repeat split; congruence.
Qed.

(** X7: the linear projection of strategy 'dino-output' is built for 384
    inputs, so [forward_dino_output] returns only with a checkpoint whose
    pooled embedding is 384 wide. *)
Theorem pooled_width_is_384 cfg r image message out r' :
  constructed h cfg (self r) ->
  encoder_mode (self r) = "dino-output" ->
  forward_dino_output image message r = (ok out, r') ->
  exists ck, h "facebook/dino-vits8" = Some ck /\ hidden_size ck = 384.
Proof.
  intros Hc Hmode E. apply constructed_strategy in Hc.
  destruct Hc as (_ & _ & _ & _ & _ & _ & Hs).
  destruct Hs as [(Hm & _) | [(ck & m & Hh & _ & _ & _ & Hmo & Hcfg & _ & Hli)
                             | (ck & m & _ & Hm & _)]];
    try (rewrite Hmode in Hm; discriminate).
  apply forward_dino_output_needs in E.
  destruct E as (_ & _ & _ & (m' & lin & Hmo' & Hli' & Hin) & _).
  rewrite Hmo in Hmo'. injection Hmo' as <-.
  rewrite Hli in Hli'. injection Hli' as <-.
  exists ck. split; [exact Hh |]. rewrite <- Hcfg. cbn in Hin. lia.
Qed.

(** X8: the 28 x 28 grid of strategy 'dino-attention' is fixed in the code,
    so [forward_dino_attention] returns only with a backbone that has at
    least one layer and cuts its input into 28 * 28 patches. *)
Theorem attention_grid_is_28 cfg r image message out r' :
  constructed h cfg (self r) ->
  encoder_mode (self r) = "dino-attention" ->
  (forall ck, h "facebook/dino-vits8" = Some ck -> 0 < num_attention_heads ck) ->
  forward_dino_attention image message r = (ok out, r') ->
  exists ck,
    h "facebook/dino-vits8" = Some ck
    /\ 1 <= num_hidden_layers ck
    /\ (ck_image_size ck / ck_patch_size ck) * (ck_image_size ck / ck_patch_size ck)
       = 28 * 28.
Proof.
  intros Hc Hmode Hheads E. apply constructed_strategy in Hc.
  destruct Hc as (_ & _ & _ & _ & _ & _ & Hs).
  destruct Hs as [(Hm & _) | [(ck & m & _ & Hm & _)
                             | (ck & m & Hh & _ & _ & _ & Hmo & Hcfg & _)]];
    try (rewrite Hmode in Hm; discriminate).
  apply forward_dino_attention_needs in E.
  destruct E as (_ & _ & _ & m' & Hmo' & _ & Hnl & Hseq).
  rewrite Hmo in Hmo'. injection Hmo' as <-. rewrite Hcfg in *.
  specialize (Hseq (Hheads _ Hh)). unfold seq_len in Hseq.
  exists ck. repeat split; auto. lia.
Qed.
End ConstructedEncoders.

(** ** What a call leaves alone *)

Section MoreFrames.
Context {A : Type} {N : Numerics A}.
Implicit Types r : runtime (A := A).
Implicit Types image message out : tensor A.

Lemma kept_refl r : trunk_and_generator_kept r r.
Proof. split; reflexivity. Qed.

Lemma kept_trans r1 r2 r3 :
  trunk_and_generator_kept r1 r2 -> trunk_and_generator_kept r2 r3 ->
  trunk_and_generator_kept r1 r3.
Proof. intros [G1 C1] [G2 C2]. split; congruence. Qed.

Lemma kept_after_concat (x : tensor A) :
  frames trunk_and_generator_kept (call_after_concat_layer x).
Proof.
  intros r res r'. unfold call_after_concat_layer.
  destruct (ConvBNRelu_forward _ _ _ _) as [res' l].
  intro E. inversion E; subst. split; reflexivity.
Qed.

(** X9: the pretrained strategies never run the trunk and never draw from
    the random generator: whatever [forward] returns or raises in modes
    'dino-output' and 'dino-attention', the stages of [conv_layers] and the
    generator are as before the call. *)
Theorem pretrained_paths_skip_trunk r image message res r' :
  encoder_mode (self r) = "dino-output" \/ encoder_mode (self r) = "dino-attention" ->
  forward image message r = (res, r') ->
  generator r' = generator r /\ conv_layers (self r') = conv_layers (self r).
Proof.
  intros Hmode E. unfold forward, bind, gets in E.
  destruct Hmode as [Hv | Hv]; rewrite Hv in E;
    cbn [String.eqb Ascii.eqb Bool.eqb] in E.
  - exact (forward_dino_output_frames kept_refl kept_trans kept_after_concat
             image message r E).
  - exact (forward_dino_attention_frames kept_refl kept_trans kept_after_concat
             image message r E).
Qed.


(** *** The broadcast of the message *)

Lemma expand_unit_iff n (rest : option (list Z)) :
  (exists s, (if (n =? -1) || (n =? 1) then option_map (cons 1) rest
              else if (1 =? 1) && (0 <=? n) then option_map (cons n) rest else None)
             = Some s)
  <-> expandable n /\ exists s', rest = Some s'.
Proof.
  unfold expandable. split.
  - intros [s E].
    destruct (Z.eqb_spec n (-1)); cbn [orb] in E.
    + destruct rest; [| discriminate]. eauto.
    + destruct (Z.eqb_spec n 1); cbn [orb] in E.
      * destruct rest; [| discriminate]. split; [right; lia | eauto].
      * cbn [Z.eqb Pos.eqb andb] in E.
        destruct (Z.leb_spec 0 n); [| discriminate].
        destruct rest; [| discriminate]. eauto.
  - intros [Hn [s' ->]].
    destruct (Z.eqb_spec n (-1)); cbn [orb option_map]; [eauto |].
    destruct (Z.eqb_spec n 1); cbn [orb option_map]; [eauto |].
    cbn [Z.eqb Pos.eqb andb].
    destruct (Z.leb_spec 0 n); [eauto | lia].
Qed.

(** X11: the broadcast of line 64 (80, 94) goes through exactly when the
    message is two-dimensional and each of self.H and self.W is -1 or not
    negative; anything else makes [expand] raise.  The state is never
    touched. *)
Theorem expand_message_accepts r (message : tensor A) :
  (exists e, expand_message message r = (ok e, r))
  <-> (exists B L, shape message = [B; L])
      /\ expandable (H (self r)) /\ expandable (W (self r)).
Proof.
  assert (forall e, expand_message message r = (ok e, r)
                    <-> broadcast (H (self r)) (W (self r)) message = ok e) as Hrun.
  { intro e. unfold expand_message, bind, gets, lift.
    split; intro E; [inversion E; reflexivity | now rewrite E]. }
  assert ((exists e, broadcast (H (self r)) (W (self r)) message = ok e)
          <-> exists s, expand_shape (rev [-1; -1; H (self r); W (self r)])
                          (rev ((shape message ++ [1]) ++ [1])) = Some s) as Hshape.
  { unfold broadcast. rewrite unsqueeze_last. cbn [rbind].
    rewrite unsqueeze_last. cbn [rbind]. unfold expand. cbn [shape].
    destruct (expand_shape _ _) as [s |]; split.
    - eauto.
    - intros _. eexists. reflexivity.
    - intros [e E]. discriminate.
    - intros [s E]. discriminate. }
  split.
  - intros [e E]. apply Hrun in E.
    pose proof (broadcast_inv _ _ _ E) as (B & L & Hm & _).
    split; [eauto |].
    assert (exists e, broadcast (H (self r)) (W (self r)) message = ok e) as Hex by eauto.
    apply Hshape in Hex. rewrite Hm in Hex. cbn [app rev expand_shape] in Hex.
    apply expand_unit_iff in Hex as [HW [s1 Hex]].
    assert (exists s, (if (H (self r) =? -1) || (H (self r) =? 1)
                       then option_map (cons 1)
                              (expand_shape [-1; -1] [L; B])
                       else if (1 =? 1) && (0 <=? H (self r))
                            then option_map (cons (H (self r)))
                                   (expand_shape [-1; -1] [L; B])
                            else None) = Some s) as Hex' by eauto.
    apply expand_unit_iff in Hex' as [HH _]. auto.
  - intros [(B & L & Hm) [HH HW]].
    assert (exists e, broadcast (H (self r)) (W (self r)) message = ok e) as [e E].
    { apply Hshape. rewrite Hm. cbn [app rev].
      change (expand_shape [W (self r); H (self r); -1; -1] [1; 1; L; B])
        with (if (W (self r) =? -1) || (W (self r) =? 1)
              then option_map (cons 1) (expand_shape [H (self r); -1; -1] [1; L; B])
              else if (1 =? 1) && (0 <=? W (self r))
                   then option_map (cons (W (self r)))
                          (expand_shape [H (self r); -1; -1] [1; L; B])
                   else None).
      apply expand_unit_iff. split; [exact HW |].
      change (expand_shape [H (self r); -1; -1] [1; L; B])
        with (if (H (self r) =? -1) || (H (self r) =? 1)
              then option_map (cons 1) (expand_shape [-1; -1] [L; B])
              else if (1 =? 1) && (0 <=? H (self r))
                   then option_map (cons (H (self r))) (expand_shape [-1; -1] [L; B])
                   else None).
      apply expand_unit_iff. split; [exact HH |].
      cbn [expand_shape].
      replace ((-1 =? -1) || (-1 =? L)) with true by reflexivity.
      replace ((-1 =? -1) || (-1 =? B)) with true by reflexivity.
      cbn [option_map]. eauto. }
    exists e. now apply Hrun.
Qed.
End MoreFrames.

(** ** When the forward pass returns *)

Section ForwardReturns.
Context {A : Type} {N : Numerics A}.
Implicit Types r : runtime (A := A).
Implicit Types image message out : tensor A.











End ForwardReturns.

Section VitReturns.
Context {A : Type} {N : Numerics A}.
Implicit Types r : runtime (A := A).
Implicit Types image message out : tensor A.
Variable h : hub (A := A).


End VitReturns.

Section PretrainedReturns.
Context {A : Type} {N : Numerics A}.
Implicit Types r : runtime (A := A).
Implicit Types image message out : tensor A.
Variable h : hub (A := A).








End PretrainedReturns.

(** ** The further properties on concrete runs *)

Lemma allocations_by_strategy_witness :
  exists e made',
    __init__ the_hub (sample_config (Some "dino-output") 128) [] = (ok e, made')
    /\ made' = ([] ++ trunk_allocs 64 4
                ++ strategy_allocs (sample_config (Some "dino-output") 128)
                     (encoder_mode e))%list.
Proof.
  do 2 eexists. split; [vm_compute; reflexivity |].
  eapply (@allocations_by_strategy Z zeros the_hub
            (sample_config (Some "dino-output") 128) [] _ _).
  vm_compute. reflexivity.
Defined.


Lemma vit_needs_no_hub_witness :
  __init__ the_hub (sample_config (Some "vit") 128) []
  = __init__ (fun _ => None) (sample_config (Some "vit") 128) [].
Proof.
  apply (@vit_needs_no_hub Z zeros the_hub (fun _ => None)
           (sample_config (Some "vit") 128) []).
  reflexivity.
Defined.

Lemma forward_dispatch_witness :
  exists r,
    fresh "dino-output" 128 cuda = ok r
    /\ ((encoder_mode (self r) = "vit"
         /\ vit (self r) <> None
         /\ forward (sample_image 2 128 cuda) (sample_message 2 cuda) r
            = forward_vit (sample_image 2 128 cuda) (sample_message 2 cuda) r)
        \/ (encoder_mode (self r) = "dino-output"
            /\ feature_extractor (self r) <> None /\ model (self r) <> None
            /\ linear (self r) <> None
            /\ forward (sample_image 2 128 cuda) (sample_message 2 cuda) r
               = forward_dino_output (sample_image 2 128 cuda) (sample_message 2 cuda) r)
        \/ (encoder_mode (self r) = "dino-attention"
            /\ feature_extractor (self r) <> None /\ model (self r) <> None
            /\ forward (sample_image 2 128 cuda) (sample_message 2 cuda) r
               = forward_dino_attention (sample_image 2 128 cuda)
                   (sample_message 2 cuda) r)).
Proof.
  eexists. split; [vm_compute; reflexivity |].
  eapply (@forward_dispatch Z zeros the_hub (sample_config (Some "dino-output") 128)
            _ (sample_image 2 128 cuda) (sample_message 2 cuda)).
  exists []. eexists. vm_compute. reflexivity.
Defined.

Lemma message_length_is_checked_witness :
  exists r out r',
    fresh "dino-output" 128 cuda = ok r
    /\ forward (sample_image 2 128 cuda) (sample_message 2 cuda) r = (ok out, r')
    /\ exists B,
         shape (sample_image 2 128 cuda) = [B; 3; 128; 128]
         /\ shape (sample_message 2 cuda)
            = [B; options.message_length (sample_config (Some "dino-output") 128)].
Proof.
  do 3 eexists. split; [vm_compute; reflexivity |].
  match goal with
  | |- forward _ _ ?r = _ /\ _ =>
      split; [vm_compute; reflexivity |];
      eapply (@message_length_is_checked Z zeros the_hub
                (sample_config (Some "dino-output") 128)
                r (sample_image 2 128 cuda) (sample_message 2 cuda))
  end.
  - exists []. eexists. vm_compute. reflexivity.
  - right. reflexivity.
  - vm_compute. reflexivity.
Defined.

Lemma pretrained_paths_need_cuda_witness :
  exists r out r',
    fresh "dino-attention" 128 cuda = ok r
    /\ forward (sample_image 2 128 cuda) (sample_message 2 cuda) r = (ok out, r')
    /\ cuda_available r = true
    /\ parameters (self r) = {| p_device := cuda; p_dtype := float32 |}
    /\ t_device (sample_image 2 128 cuda) = cuda
    /\ t_device (sample_message 2 cuda) = cuda
    /\ t_device out = cuda /\ t_dtype out = float32.
Proof.
  do 3 eexists. split; [vm_compute; reflexivity |].
  split; [vm_compute; reflexivity |].
  eapply (@pretrained_paths_need_cuda Z zeros
            _ (sample_image 2 128 cuda) (sample_message 2 cuda)).
  - right. reflexivity.
  - vm_compute. reflexivity.
Defined.

Lemma pooled_width_is_384_witness :
  exists r out r',
    fresh "dino-output" 128 cuda = ok r
    /\ forward_dino_output (sample_image 2 128 cuda) (sample_message 2 cuda) r
       = (ok out, r')
    /\ exists ck, the_hub "facebook/dino-vits8" = Some ck /\ hidden_size ck = 384.
Proof.
  do 3 eexists. split; [vm_compute; reflexivity |].
  match goal with
  | |- forward_dino_output _ _ ?r = _ /\ _ =>
      split; [vm_compute; reflexivity |];
      eapply (@pooled_width_is_384 Z zeros the_hub
                (sample_config (Some "dino-output") 128)
                r (sample_image 2 128 cuda) (sample_message 2 cuda))
  end.
  - exists []. eexists. vm_compute. reflexivity.
  - reflexivity.
  - vm_compute. reflexivity.
Defined.

Lemma attention_grid_is_28_witness :
  exists r out r',
    fresh "dino-attention" 128 cuda = ok r
    /\ forward_dino_attention (sample_image 2 128 cuda) (sample_message 2 cuda) r
       = (ok out, r')
    /\ exists ck,
         the_hub "facebook/dino-vits8" = Some ck
         /\ 1 <= num_hidden_layers ck
         /\ (ck_image_size ck / ck_patch_size ck) * (ck_image_size ck / ck_patch_size ck)
            = 28 * 28.
Proof.
  do 3 eexists. split; [vm_compute; reflexivity |].
  match goal with
  | |- forward_dino_attention _ _ ?r = _ /\ _ =>
      split; [vm_compute; reflexivity |];
      eapply (@attention_grid_is_28 Z zeros the_hub
                (sample_config (Some "dino-attention") 128)
                r (sample_image 2 128 cuda) (sample_message 2 cuda))
  end.
  - exists []. eexists. vm_compute. reflexivity.
  - reflexivity.
  - intros ck E. vm_compute in E. injection E as <-. reflexivity.
  - vm_compute. reflexivity.
Defined.

Lemma pretrained_paths_skip_trunk_witness :
  exists r res r',
    fresh "dino-output" 128 cuda = ok r
    /\ forward (sample_image 2 128 cuda) (sample_message 2 cuda) r = (res, r')
    /\ generator r' = generator r
    /\ conv_layers (self r') = conv_layers (self r).
Proof.
  do 3 eexists. split; [vm_compute; reflexivity |].
  split; [vm_compute; reflexivity |].
  eapply (@pretrained_paths_skip_trunk Z zeros
            _ (sample_image 2 128 cuda) (sample_message 2 cuda)).
  - left. reflexivity.
  - vm_compute. reflexivity.
Defined.




